(** * Trust-line checker (check_trustlines.py): model and properties

    A shallow embedding of [TrustLineChecker] and of [main].  Values that
    travel through the ledger response are decoded JSON, so they are modelled
    by a type of dynamically typed values; the websocket client, the CSV
    files and the process environment are the outside world and are a record
    of answers indexed by the history of client calls.  Every [print] of
    the checker, of the batch and of [main] is a step of the model; the
    console is described by what it does with the three literals of the
    program that are not ASCII. *)

From Stdlib Require Import ZArith List Ascii.
From Stdlib Require Import Floats.SpecFloat.
From stdpp Require Import base option list strings gmap fin_maps.

Local Open Scope string_scope.
Local Open Scope list_scope.

(** ** Dynamically typed values *)

(** What [json.loads] produces.  A Python [str] is kept as the bytes of its
    UTF-8 encoding: equality of two strings is equality of their encodings,
    and the byte of ["."] occurs in an encoding only as the character ["."]. *)
#[warnings="-register-all"]
Inductive json : Type :=
| JNull
| JBool (b : bool)
| JInt (n : Z)
| JFloat (f : spec_float)
| JStr (s : string)
| JArr (l : list json)
| JObj (m : gmap string json).

(** Exceptions deriving from [Exception].  [RemoteError] stands for whatever
    the client library, the file system or pandas raise. *)
Inductive exn : Type :=
| AttributeError (msg : string)
| TypeError (msg : string)
| NameError (msg : string)
| UnicodeEncodeError (msg : string)
| RemoteError (msg : string).

(** A computation that returns or raises. *)
Definition Result (A : Type) : Type := (exn + A)%type.

Definition ret {S A : Type} (a : A) : S -> Result A * S :=
  fun s => (inr a, s).

Definition raise {S A : Type} (e : exn) : S -> Result A * S :=
  fun s => (inl e, s).

Definition bind {S A B : Type} (m : S -> Result A * S)
    (k : A -> S -> Result B * S) : S -> Result B * S :=
  fun s => match m s with
           | (inl e, s') => (inl e, s')
           | (inr a, s') => k a s'
           end.

(** [try: body / except Exception as e: handler e]. *)
Definition try_except {S A : Type} (body : S -> Result A * S)
    (handler : exn -> S -> Result A * S) : S -> Result A * S :=
  fun s => match body s with
           | (inl e, s') => handler e s'
           | (inr a, s') => (inr a, s')
           end.

(** [try: body / finally: cleanup]: the cleanup runs on both exits; an
    exception of the cleanup replaces the outcome of the body. *)
Definition try_finally {S A : Type} (body : S -> Result A * S)
    (cleanup : S -> Result unit * S) : S -> Result A * S :=
  fun s => match body s with
           | (r, s') => match cleanup s' with
                        | (inl e, s'') => (inl e, s'')
                        | (inr _, s'') => (r, s'')
                        end
           end.

(** A step that cannot touch the state. *)
Definition lift {S A : Type} (r : Result A) : S -> Result A * S :=
  fun s => (r, s).

Notation "'do' x <- m ; k" := (bind m (fun x => k))
  (at level 10, x name, m at level 100, k at level 200,
   format "'[v' 'do'  x  <-  m ; '/' k ']'").
Notation "'run' m ; k" := (bind m (fun _ => k))
  (at level 10, m at level 100, k at level 200,
   format "'[v' 'run'  m ; '/' k ']'").

(** ** The Python operations the checker uses *)

Module Py.

(** [bool(v)]. *)
Definition truthy (v : json) : bool :=
  match v with
  | JNull => false
  | JBool b => b
  | JInt n => negb (n =? 0)%Z
  | JFloat (S754_zero _) => false
  | JFloat _ => true
  | JStr s => negb (String.eqb s "")
  | JArr l => negb (Nat.eqb (length l) 0)
  | JObj m => negb (Nat.eqb (size m) 0)
  end.

(** [v == s] for a [str] [s]: only an equal [str] is equal to it. *)
Definition eq_str (v : json) (s : string) : bool :=
  match v with
  | JStr t => String.eqb t s
  | _ => false
  end.

(** [v.get(key, default)]: [dict.get], an [AttributeError] on a value of
    another type. *)
Definition get (v : json) (key : string) (default : json) : Result json :=
  match v with
  | JObj m => inr (match m !! key with Some x => x | None => default end)
  | _ => inl (AttributeError "object has no attribute 'get'")
  end.

(** [len(v)]. *)
Definition len (v : json) : Result Z :=
  match v with
  | JStr s => inr (Z.of_nat (String.length s))
  | JArr l => inr (Z.of_nat (length l))
  | JObj m => inr (Z.of_nat (size m))
  | _ => inl (TypeError "object has no len()")
  end.

(** The items a [for] loop over [v] visits: the elements of a list, the
    characters of a string (here: one item per byte), the keys of a dict
    (here: in the order of [map_to_list]; every reader of this list fails
    on its first item, whichever it is). *)
Definition iter (v : json) : Result (list json) :=
  match v with
  | JArr l => inr l
  | JStr s => inr (map (fun c => JStr (String c "")) (String.list_ascii_of_string s))
  | JObj m => inr (map (fun kv => JStr (fst kv)) (map_to_list m))
  | _ => inl (TypeError "object is not iterable")
  end.

(** [c in s] for a one-character [c]. *)
Fixpoint contains (c : ascii) (s : string) : bool :=
  match s with
  | EmptyString => false
  | String d rest => if Ascii.eqb d c then true else contains c rest
  end.

(** [s.split(c)] for a one-character separator [c]: never empty. *)
Fixpoint split (c : ascii) (s : string) : list string :=
  match s with
  | EmptyString => [EmptyString]
  | String d rest =>
      if Ascii.eqb d c then EmptyString :: split c rest
      else match split c rest with
           | [] => [String d EmptyString]
           | w :: ws => String d w :: ws
           end
  end.

(** [all(l)] over optional strings: [None] and [""] are false. *)
Definition truthy_opt (o : option string) : bool :=
  match o with
  | None => false
  | Some s => negb (String.eqb s "")
  end.

End Py.

(** ** The outside world *)

(** Calls made on the websocket client, in the order they are made. *)
Inductive event : Type :=
| Open (url : string)
| Request (account : string)
| Close.

(** The literals of the program that are not ASCII: the star of line 67
    (U+2B50), the check mark and the cross of line 89 (U+2705, U+274C). *)
Inductive mark : Type :=
| Star
| CheckMark
| CrossMark.

(** The answers of the outside world.  An answer of the client may depend on
    every call made before it.  [ws_request] gives [response.result], a dict,
    or the exception of the call; [load_wallets] is the outcome of reading
    the address column of the CSV file (file system and [csv] module);
    [to_csv] is the outcome of writing the output table (pandas); [stdout]
    is what [print] raises on a text that holds the given literal (a
    [UnicodeEncodeError] when the encoding of the console lacks it), [None]
    when the console prints it.  The other texts, ASCII literals around
    addresses and ledger values, are taken to be printed. *)
Record World : Type := {
  getenv : string -> option string;
  load_wallets : string -> Result (list string);
  to_csv : string -> list (string * string) -> option exn;
  ws_open : list event -> string -> option exn;
  ws_request : list event -> string -> Result (gmap string json);
  ws_close : list event -> option exn;
  stdout : mark -> option exn
}.

Module Console.

(** [print] of a text without such a literal. *)
Definition say {S : Type} (text : string) : S -> Result unit * S :=
  ret tt.

(** [print] of a text that holds the literal [m]. *)
Definition say_mark {S : Type} (w : World) (m : mark) (text : string)
    : S -> Result unit * S :=
  fun s => (match stdout w m with
            | Some e => inl e
            | None => inr tt
            end, s).

End Console.

(** ** WalletStatus and TrustLineChecker *)

Record WalletStatus : Type := {
  address : string;
  has_trustline : bool
}.

Record AsyncWebsocketClient : Type := { url : string }.

Record TrustLineChecker : Type := {
  websocket_url : string;
  token_issuer : string;
  token_currency : string;
  client : option AsyncWebsocketClient
}.

(** A method runs on its object and on the calls made so far. *)
Record State : Type := {
  self : TrustLineChecker;
  calls : list event
}.

Definition M (A : Type) : Type := State -> Result A * State.

Module Client.

(** [self.client = c]. *)
Definition assign (c : AsyncWebsocketClient) : M unit :=
  fun s => (inr tt,
            {| self := {| websocket_url := websocket_url (self s);
                          token_issuer := token_issuer (self s);
                          token_currency := token_currency (self s);
                          client := Some c |};
               calls := calls s |}).

(** [await self.client.open()]. *)
Definition open (w : World) : M unit :=
  fun s => match client (self s) with
           | None => raise (AttributeError "'NoneType' object has no attribute 'open'") s
           | Some c =>
               (match ws_open w (calls s) (url c) with
                | Some e => inl e
                | None => inr tt
                end,
                {| self := self s; calls := calls s ++ [Open (url c)] |})
           end.

(** [await self.client.request(AccountLines(account=wallet_address))],
    then [.result]. *)
Definition request (w : World) (wallet_address : string)
    : M (gmap string json) :=
  fun s => match client (self s) with
           | None => raise (AttributeError "'NoneType' object has no attribute 'request'") s
           | Some _ =>
               (ws_request w (calls s) wallet_address,
                {| self := self s;
                   calls := calls s ++ [Request wallet_address] |})
           end.

(** [await self.client.close()] on a client that exists. *)
Definition close (w : World) : M unit :=
  fun s => (match ws_close w (calls s) with
            | Some e => inl e
            | None => inr tt
            end,
            {| self := self s; calls := calls s ++ [Close] |}).

End Client.

Module TrustLineChecker.

(** [__init__]. *)
Definition init (websocket_url token_issuer token_currency : string)
    : TrustLineChecker :=
  {| websocket_url := websocket_url;
     token_issuer :=
       if Py.contains "." token_issuer
       then List.last (Py.split "." token_issuer) EmptyString
       else token_issuer;
     token_currency := token_currency;
     client := None |}.

Definition connect (w : World) : M unit :=
  do me <- (fun s => (inr (self s), s));
  run Console.say "Connecting to ...";
  run Client.assign {| url := websocket_url me |};
  run Client.open w;
  run Console.say "Connected to XRPL";
  run Console.say "Checking for token: ";
  Console.say "Issuer address: ".

(** The loop that prints every trust line (lines 56 to 67). *)
Fixpoint show_lines (w : World) (me : TrustLineChecker) (lines : list json)
    : M unit :=
  match lines with
  | [] => ret tt
  | line :: rest =>
      run Console.say "Trust Line #";
      run lift (Py.get line "currency" (JStr "N/A"));
      run Console.say "Currency: ";
      run lift (Py.get line "account" (JStr "N/A"));
      run Console.say "Issuer: ";
      run lift (Py.get line "balance" (JStr "N/A"));
      run Console.say "Balance: ";
      run lift (Py.get line "limit" (JStr "N/A"));
      run Console.say "Limit: ";
      run Console.say "--------------------------------------------------";
      do account <- lift (Py.get line "account" JNull);
      run (if Py.eq_str account (token_issuer me)
           then do currency <- lift (Py.get line "currency" JNull);
                if Py.eq_str currency (token_currency me)
                then Console.say_mark w Star " This is our target token!"
                else ret tt
           else ret tt);
      show_lines w me rest
  end.

(** The loop that decides (lines 70 to 77). *)
Fixpoint find_line (me : TrustLineChecker) (lines : list json) : M bool :=
  match lines with
  | [] => ret false
  | line :: rest =>
      do account <- lift (Py.get line "account" JNull);
      if Py.eq_str account (token_issuer me)
      then do currency <- lift (Py.get line "currency" JNull);
           if Py.eq_str currency (token_currency me)
           then do limit <- lift (Py.get line "limit" (JStr "0"));
                ret (negb (Py.eq_str limit "0"))
           else find_line me rest
      else find_line me rest
  end.

(** The body of the [try] of [check_trustline]. *)
Definition check_trustline_body (w : World) (wallet_address : string)
    : M bool :=
  do me <- (fun s => (inr (self s), s));
  do result <- Client.request w wallet_address;
  match result !! "error" with
  | Some _ => run Console.say "Error response for "; ret false
  | None =>
      let lines := match result !! "lines" with
                   | Some v => v
                   | None => JArr []
                   end in
      run Console.say "=== Trust lines for ===";
      run (if negb (Py.truthy lines) then Console.say "No trust lines found"
           else run lift (Py.len lines);
                run Console.say "Found trust lines:";
                do items <- lift (Py.iter lines);
                show_lines w me items);
      do items <- lift (Py.iter lines);
      find_line me items
  end.

Definition check_trustline (w : World) (wallet_address : string) : M bool :=
  try_except (check_trustline_body w wallet_address)
    (fun _ => run Console.say "Error checking trustline for "; ret false).

Fixpoint check_wallets_from (w : World) (results : list WalletStatus)
    (wallets : list string) : M (list WalletStatus) :=
  match wallets with
  | [] => ret results
  | wallet :: rest =>
      do has_trustline <- check_trustline w wallet;
      let results :=
        results ++ [{| address := wallet; has_trustline := has_trustline |}] in
      let status := if has_trustline then CheckMark else CrossMark in
      run Console.say_mark w status "Wallet: - Trustline: ";
      run Console.say "----------------------------------------";
      check_wallets_from w results rest
  end.

Definition check_wallets (w : World) (wallets : list string)
    : M (list WalletStatus) :=
  check_wallets_from w [] wallets.

Definition close (w : World) : M unit :=
  do me <- (fun s => (inr (self s), s));
  match client me with
  | Some _ => run Client.close w; Console.say "Connection closed"
  | None => ret tt
  end.

End TrustLineChecker.

(** ** The module-level functions *)

(** [save_results]: one row per result, then the write. *)
Definition save_results (w : World) (results : list WalletStatus)
    (output_file : string) : Result unit :=
  let rows :=
    map (fun r => (address r, if has_trustline r then "TRUE" else "FALSE"))
        results in
  match to_csv w output_file rows with
  | Some e => inl e
  | None => inr tt
  end.

(** The figures of the final summary (lines 173 to 184). *)
Record Summary : Type := {
  total_wallets_checked : Z;
  wallets_with_trustline : Z;
  wallets_without_trustline : Z;
  wallets_missing_trust_lines : list string
}.

(** [sum(1 for r in results if r.has_trustline)]. *)
Definition trustlines_count (results : list WalletStatus) : Z :=
  fold_left Z.add
    (flat_map (fun r => if has_trustline r then [1%Z] else []) results) 0%Z.

(** [[r.address for r in results if not r.has_trustline]]. *)
Definition wallets_without_trustlines (results : list WalletStatus)
    : list string :=
  flat_map (fun r => if negb (has_trustline r) then [address r] else [])
           results.

Definition final_summary (results : list WalletStatus) : Summary :=
  {| total_wallets_checked := Z.of_nat (length results);
     wallets_with_trustline := trustlines_count results;
     wallets_without_trustline :=
       (Z.of_nat (length results) - trustlines_count results)%Z;
     wallets_missing_trust_lines := wallets_without_trustlines results |}.

(** The frame of [main]: its local [checker], unbound at first, the calls
    made on the client so far and the summary once it is printed. *)
Record Frame : Type := {
  checker : option TrustLineChecker;
  made : list event;
  summary : option Summary
}.

Definition start : Frame := {| checker := None; made := []; summary := None |}.

(** [checker = c]. *)
Definition bind_checker (c : TrustLineChecker) : Frame -> Result unit * Frame :=
  fun f => (inr tt, {| checker := Some c; made := made f; summary := summary f |}).

(** [await checker.method(...)]. *)
Definition call {A : Type} (method : M A) : Frame -> Result A * Frame :=
  fun f => match checker f with
           | None => raise (NameError "name 'checker' is not defined") f
           | Some c =>
               match method {| self := c; calls := made f |} with
               | (r, s) => (r, {| checker := Some (self s);
                                  made := calls s;
                                  summary := summary f |})
               end
           end.

Definition print_summary (sm : Summary) : Frame -> Result unit * Frame :=
  fun f => (inr tt, {| checker := checker f; made := made f; summary := Some sm |}).

Definition main (w : World) : Frame -> Result unit * Frame :=
  let websocket_url := getenv w "XRPL_WEBSOCKET_URL" in
  let token_issuer := getenv w "TOKEN_ISSUER" in
  let token_currency := getenv w "TOKEN_CURRENCY" in
  let input_csv := default "wallets.csv" (getenv w "INPUT_CSV") in
  let output_csv := default "trustline_status.csv" (getenv w "OUTPUT_CSV") in
  if negb (forallb Py.truthy_opt [websocket_url; token_issuer; token_currency])
  then run Console.say "Error: Missing required environment variables.";
       run Console.say "Please ensure ... are set in .env";
       ret tt
  else
    match websocket_url, token_issuer, token_currency with
    | Some websocket_url, Some token_issuer, Some token_currency =>
        run Console.say "Checking trustlines for ... token issued by ...";
        run Console.say "----------------------------------------";
        try_finally
          (try_except
             (do wallets <- lift (load_wallets w input_csv);
              run bind_checker
                    (TrustLineChecker.init websocket_url token_issuer
                                           token_currency);
              run call (TrustLineChecker.connect w);
              do results <- call (TrustLineChecker.check_wallets w wallets);
              run lift (save_results w results output_csv);
              print_summary (final_summary results))
             (fun _ => Console.say "Error: "))
          (fun f => match checker f with
                    | Some _ => call (TrustLineChecker.close w) f
                    | None => ret tt f
                    end)
    | _, _, _ => ret tt (* not reached: [all] is false on a [None] *)
    end.

(** ** load_wallets

    [load_wallets] itself, on what [open] and [csv.DictReader] give for the
    path.  [str.strip] is a parameter: the function never looks at how
    whitespace is recognised. *)

(** The file behind a path: absent; failing in another way at [open] or at
    the first read; or a reader with its [fieldnames] ([None] for an empty
    file), the value of [row['address']] of each row it yields, in order
    ([None] is the fill value of a row too short to have the field), and the
    failure that ends the reading after these rows, if any. *)
Inductive csv_file : Type :=
| NoSuchFile
| Unreadable (msg : string)
| DictReader (fieldnames : option (list string))
             (cells : list (option string)) (failure : option string).

(** What is raised inside the [try] of [load_wallets]. *)
Inductive csv_exn : Type :=
| FileNotFoundError
| ValueError (msg : string)
| NotIterable            (* TypeError of ['address' not in None] *)
| NoStrip                (* AttributeError of [None.strip()] *)
| ReadError (msg : string).

(** What [load_wallets] raises: [Exception("CSV file not found: " + path)]
    or [Exception("Error reading CSV file: " + str(cause))]. *)
Inductive load_error : Type :=
| CsvNotFound (csv_path : string)
| CsvReadingError (cause : csv_exn).

Module Loader.

(** The loop over the rows (lines 110 to 113). *)
Fixpoint read_rows (strip : string -> string) (wallets : list string)
    (cells : list (option string)) (failure : option string)
    : csv_exn + list string :=
  match cells with
  | [] => match failure with
          | Some msg => inl (ReadError msg)
          | None => inr wallets
          end
  | None :: _ => inl NoStrip
  | Some cell :: rest =>
      let address := strip cell in
      if negb (String.eqb address "")
      then read_rows strip (wallets ++ [address]) rest failure
      else read_rows strip wallets rest failure
  end.

(** The body of the [try] (lines 104 to 119). *)
Definition load_wallets_body (strip : string -> string) (file : csv_file)
    : csv_exn + list string :=
  match file with
  | NoSuchFile => inl FileNotFoundError
  | Unreadable msg => inl (ReadError msg)
  | DictReader fieldnames cells failure =>
      match fieldnames with
      | None => inl NotIterable
      | Some names =>
          if negb (existsb (String.eqb "address") names)
          then inl (ValueError "CSV file must have a column named 'address'")
          else
            match read_rows strip [] cells failure with
            | inl e => inl e
            | inr wallets =>
                match wallets with
                | [] => inl (ValueError "No wallet addresses found in CSV file")
                | _ :: _ => inr wallets
                end
            end
      end
  end.

Definition load_wallets (strip : string -> string)
    (files : string -> csv_file) (csv_path : string)
    : load_error + list string :=
  match load_wallets_body strip (files csv_path) with
  | inl FileNotFoundError => inl (CsvNotFound csv_path)
  | inl e => inl (CsvReadingError e)
  | inr wallets => inr wallets
  end.

End Loader.

(** ** A sample run

    A world used to run the model: five wallets, the first with a usable
    trust line behind a record of another issuer, the second failing in
    transport, the third unknown to the ledger, the fourth answered without
    a trust-line list, the fifth with a matching record that has no limit. *)

Definition trust_line (account currency limit : string) : gmap string json :=
  <["account" := JStr account]> (<["currency" := JStr currency]>
    (<["balance" := JStr "0"]> (<["limit" := JStr limit]> ∅))).

Definition demo_lines : list (gmap string json) :=
  [trust_line "rOther" "USD" "7"; trust_line "rABC123" "USD" "100";
   trust_line "rABC123" "USD" "0"].

Definition demo : World :=
  {| getenv := fun k =>
       if String.eqb k "XRPL_WEBSOCKET_URL" then Some "wss://xrpl.example"
       else if String.eqb k "TOKEN_ISSUER" then Some "ns.rABC123"
       else if String.eqb k "TOKEN_CURRENCY" then Some "USD"
       else None;
     load_wallets := fun _ => inr ["rA"; "rB"; "rC"; "rD"; "rE"];
     to_csv := fun _ _ => None;
     ws_open := fun _ _ => None;
     ws_request := fun _ account =>
       if String.eqb account "rA"
       then inr (<["lines" := JArr (JObj <$> demo_lines)]> ∅)
       else if String.eqb account "rB" then inl (RemoteError "connection lost")
       else if String.eqb account "rC"
       then inr (<["error" := JStr "actNotFound"]> ∅)
       else if String.eqb account "rD" then inr ∅
       else inr (<["lines" :=
                     JArr [JObj (delete "limit" (trust_line "rABC123" "USD" "1"))]]> ∅);
     ws_close := fun _ => None;
     stdout := fun _ => None |}.

Definition demo_client : AsyncWebsocketClient := {| url := "wss://xrpl.example" |}.

(** The checker of the sample run once connected. *)
Definition demo_state : State :=
  {| self := {| websocket_url := "wss://xrpl.example";
                token_issuer := "rABC123";
                token_currency := "USD";
                client := Some demo_client |};
     calls := [Open "wss://xrpl.example"] |}.

(** The sample world with one part changed: no issuer configured; no CSV
    file; an endpoint that cannot be reached; an output table that cannot be
    written; a close that fails. *)
Definition demo_no_issuer : World :=
  {| getenv := fun k => if String.eqb k "TOKEN_ISSUER" then None
                        else getenv demo k;
     load_wallets := load_wallets demo; to_csv := to_csv demo;
     ws_open := ws_open demo; ws_request := ws_request demo;
     ws_close := ws_close demo; stdout := stdout demo |}.

Definition demo_no_csv : World :=
  {| getenv := getenv demo;
     load_wallets := fun _ => inl (RemoteError "CSV file not found");
     to_csv := to_csv demo;
     ws_open := ws_open demo; ws_request := ws_request demo;
     ws_close := ws_close demo; stdout := stdout demo |}.

Definition demo_unreachable : World :=
  {| getenv := getenv demo;
     load_wallets := load_wallets demo; to_csv := to_csv demo;
     ws_open := fun _ _ => Some (RemoteError "handshake failed");
     ws_request := ws_request demo; ws_close := ws_close demo;
     stdout := stdout demo |}.

Definition demo_read_only : World :=
  {| getenv := getenv demo;
     load_wallets := load_wallets demo;
     to_csv := fun _ _ => Some (RemoteError "permission denied");
     ws_open := ws_open demo; ws_request := ws_request demo;
     ws_close := ws_close demo; stdout := stdout demo |}.

Definition demo_bad_close : World :=
  {| getenv := getenv demo;
     load_wallets := load_wallets demo; to_csv := to_csv demo;
     ws_open := ws_open demo; ws_request := ws_request demo;
     ws_close := fun _ => Some (RemoteError "already closed");
     stdout := stdout demo |}.

(** The sample world answering every query with a usable record followed by
    an entry that is no record. *)
Definition demo_malformed : World :=
  {| getenv := getenv demo;
     load_wallets := load_wallets demo; to_csv := to_csv demo;
     ws_open := ws_open demo;
     ws_request := fun _ _ =>
       inr (<["lines" := JArr [JObj (trust_line "rABC123" "USD" "100"); JNull]]> ∅);
     ws_close := ws_close demo; stdout := stdout demo |}.

(** A [strip] for the sample files: blanks at both ends. *)
Fixpoint lstrip_blanks (s : string) : string :=
  match s with
  | String " " rest => lstrip_blanks rest
  | _ => s
  end.

Definition rev_string (s : string) : string :=
  String.string_of_list_ascii (rev (String.list_ascii_of_string s)).

Definition strip_blanks (s : string) : string :=
  rev_string (lstrip_blanks (rev_string (lstrip_blanks s))).

(** Sample files: a table with blank and repeated cells; a table without
    address column; a table of blank cells; a table with a row too short;
    nothing else. *)
Definition demo_files (csv_path : string) : csv_file :=
  if String.eqb csv_path "wallets.csv"
  then DictReader (Some ["name"; "address"])
         [Some " rA "; Some ""; Some "rB"; Some "   "; Some "rA"] None
  else if String.eqb csv_path "names.csv"
  then DictReader (Some ["name"]) [Some "rA"] None
  else if String.eqb csv_path "blank.csv"
  then DictReader (Some ["address"]) [Some "  "; Some ""] None
  else if String.eqb csv_path "short.csv"
  then DictReader (Some ["name"; "address"]) [Some "rA"; None; Some "rB"] None
  else NoSuchFile.

(** The sample checker as [__init__] leaves it: no client yet. *)
Definition demo_fresh_state : State :=
  {| self := TrustLineChecker.init "wss://xrpl.example" "ns.rABC123" "USD";
     calls := [] |}.

(** The sample world with an empty issuer setting. *)
Definition demo_empty_issuer : World :=
  {| getenv := fun k => if String.eqb k "TOKEN_ISSUER" then Some ""
                        else getenv demo k;
     load_wallets := load_wallets demo; to_csv := to_csv demo;
     ws_open := ws_open demo; ws_request := ws_request demo;
     ws_close := ws_close demo; stdout := stdout demo |}.

(** The sample world on a console whose encoding has none of the three
    literals (cp1252, as for output sent to a file on Windows). *)
Definition demo_cp1252 : World :=
  {| getenv := getenv demo;
     load_wallets := load_wallets demo; to_csv := to_csv demo;
     ws_open := ws_open demo; ws_request := ws_request demo;
     ws_close := ws_close demo;
     stdout := fun _ =>
       Some (UnicodeEncodeError "'charmap' codec can't encode character") |}.

(** * Properties *)

(** ** The notions of the statements *)

(** A trust-line record [e] is a match for the checker [me]: its
    counterparty account is the issuer and its currency is the currency,
    both as strings. *)
Definition matches (me : TrustLineChecker) (e : gmap string json) : Prop :=
  e !! "account" = Some (JStr (token_issuer me)) /\
  e !! "currency" = Some (JStr (token_currency me)).

(** The first match of [l], with the records before it and after it. *)
Definition first_match (me : TrustLineChecker) (l : list (gmap string json))
    (pre : list (gmap string json)) (e : gmap string json)
    (post : list (gmap string json)) : Prop :=
  l = pre ++ e :: post /\ Forall (fun x => ~ matches me x) pre /\ matches me e.

(** [l] has a first match, and the limit field of that record is not the
    string ["0"]. *)
Definition usable_trust_line (me : TrustLineChecker)
    (l : list (gmap string json)) : Prop :=
  exists pre e post v,
    first_match me l pre e post /\ e !! "limit" = Some v /\ v <> JStr "0".

(** The test of lines 72 and 73 on a record, as a boolean. *)
Definition matchesb (me : TrustLineChecker) (e : gmap string json) : bool :=
  Py.eq_str (match e !! "account" with Some x => x | None => JNull end)
            (token_issuer me)
  && Py.eq_str (match e !! "currency" with Some x => x | None => JNull end)
               (token_currency me).

(** The state after one request for [account]. *)
Definition requested (s : State) (account : string) : State :=
  {| self := self s; calls := calls s ++ [Request account] |}.

(** A step that leaves the state alone. *)
Definition silent {A : Type} (m : M A) : Prop := forall s, snd (m s) = s.

(** The state after the batch over [wallets]. *)
Definition batch_state (s : State) (wallets : list string) : State :=
  match client (self s) with
  | Some _ => {| self := self s; calls := calls s ++ map Request wallets |}
  | None => s
  end.

(** The statuses the batch collects from state [s] on: one per wallet, each
    with the answer of its own evaluation, in the state the evaluations
    before it left. *)
Fixpoint statuses (w : World) (wallets : list string) (s : State)
    : list WalletStatus :=
  match wallets with
  | [] => []
  | a :: rest =>
      match TrustLineChecker.check_trustline w a s with
      | (r, s1) =>
          {| address := a;
             has_trustline := match r with inr b => b | inl _ => false end |}
          :: statuses w rest s1
      end
  end.

Definition is_close (e : event) : bool :=
  match e with Close => true | _ => false end.

Definition is_open (e : event) : bool :=
  match e with Open _ => true | _ => false end.

(** How many times the client was closed, and opened, in a list of calls. *)
Definition closes (l : list event) : nat := length (List.filter is_close l).
Definition opens (l : list event) : nat := length (List.filter is_open l).

(** A session exists in the frame: [checker] is bound and has a client. *)
Definition session_created (f : Frame) : Prop :=
  exists me c, checker f = Some me /\ client me = Some c.

(** The three required settings are all present and not empty. *)
Definition configured (w : World) : Prop :=
  exists u i c,
    getenv w "XRPL_WEBSOCKET_URL" = Some u /\ u <> "" /\
    getenv w "TOKEN_ISSUER" = Some i /\ i <> "" /\
    getenv w "TOKEN_CURRENCY" = Some c /\ c <> "".

(** ** Further notions *)

(** A step with one outcome, whatever the state, and no effect on it. *)
Definition constant_step {A : Type} (m : M A) : Prop :=
  exists r, forall s, m s = (r, s).

(** The ledger answers a query by its account alone. *)
Definition history_free (w : World) : Prop :=
  forall (h1 h2 : list event) (account : string),
    ws_request w h1 account = ws_request w h2 account.

(** What [check_trustline] answers for [a] in state [s]. *)
Definition verdict (w : World) (a : string) (s : State) : bool :=
  match fst (TrustLineChecker.check_trustline w a s) with
  | inr b => b
  | inl _ => false
  end.

(** The rows [save_results] hands to pandas, and a row read back. *)
Definition result_rows (results : list WalletStatus) : list (string * string) :=
  map (fun r => (address r, if has_trustline r then "TRUE" else "FALSE"))
      results.


(** The outcome of the client's [close] after the calls [h]. *)
Definition close_outcome (w : World) (h : list event) : Result unit :=
  match ws_close w h with
  | Some e => inl e
  | None => inr tt
  end.

(** The checker [main] holds once connected. *)
Definition connected_checker (u i c : string) : TrustLineChecker :=
  {| websocket_url := u;
     token_issuer := token_issuer (TrustLineChecker.init u i c);
     token_currency := c;
     client := Some {| url := u |} |}.

(** The body of [check_trustline] from the answer [result] on. *)
Definition after_answer (w : World) (me : TrustLineChecker)
    (result : gmap string json) : M bool :=
  match result !! "error" with
  | Some _ => run Console.say "Error response for "; ret false
  | None =>
      let lines := match result !! "lines" with
                   | Some v => v
                   | None => JArr []
                   end in
      run Console.say "=== Trust lines for ===";
      run (if negb (Py.truthy lines) then Console.say "No trust lines found"
           else run lift (Py.len lines);
                run Console.say "Found trust lines:";
                do items <- lift (Py.iter lines);
                TrustLineChecker.show_lines w me items);
      do items <- lift (Py.iter lines);
      TrustLineChecker.find_line me items
  end.

(** The console prints the two literals of the status line. *)
Definition marks_printable (w : World) : Prop :=
  stdout w CheckMark = None /\ stdout w CrossMark = None.

(** ** Helper lemmas *)

(** Run the monadic glue of the goal. *)
Ltac mrun :=
  unfold bind, lift, ret, raise, try_except, Console.say, Console.say_mark;
  simpl.

Lemma eq_str_true (v : json) (s : string) :
  Py.eq_str v s = true <-> v = JStr s.
Proof.
  destruct v; simpl; try (split; [discriminate | intros H; discriminate H]).
  rewrite String.eqb_eq. split; intros H; [subst; reflexivity | congruence].
Qed.

Lemma eq_str_false (v : json) (s : string) :
  Py.eq_str v s = false <-> v <> JStr s.
Proof.
  rewrite <- eq_str_true. destruct (Py.eq_str v s); split; congruence.
Qed.

Lemma matchesb_spec (me : TrustLineChecker) (e : gmap string json) :
  matchesb me e = true <-> matches me e.
Proof.
  unfold matchesb, matches. rewrite andb_true_iff, !eq_str_true.
  destruct (e !! "account"), (e !! "currency"); split; intros [H1 H2];
    split; congruence.
Qed.

Lemma first_match_unique (me : TrustLineChecker)
    (l pre1 post1 pre2 post2 : list (gmap string json))
    (e1 e2 : gmap string json) :
  first_match me l pre1 e1 post1 -> first_match me l pre2 e2 post2 ->
  pre1 = pre2 /\ e1 = e2 /\ post1 = post2.
Proof.
  intros (-> & Hp1 & Hm1). revert pre2.
  induction pre1 as [|x pre1 IH]; intros pre2 (Heq & Hp2 & Hm2).
  - destruct pre2 as [|y pre2]; simpl in Heq.
    + injection Heq as -> ->. auto.
    + injection Heq as -> _. inversion Hp2; subst. contradiction.
  - destruct pre2 as [|y pre2]; simpl in Heq.
    + injection Heq as -> _. inversion Hp1; subst. contradiction.
    + injection Heq as -> Heq. inversion Hp1; subst. inversion Hp2; subst.
      assert (Hf2 : first_match me (pre1 ++ e1 :: post1) pre2 e2 post2)
        by (repeat split; solve [assumption | apply Hm2]).
      destruct (IH ltac:(assumption) pre2 Hf2) as (-> & -> & ->). auto.
Qed.

(** The printing loop on records gets through when the console prints the
    star or no record matches. *)
Lemma show_lines_records (w : World) (me : TrustLineChecker)
    (l : list (gmap string json)) (s : State) :
  stdout w Star = None \/ existsb (matchesb me) l = false ->
  TrustLineChecker.show_lines w me (JObj <$> l) s = (inr tt, s).
Proof.
  induction l as [|e l IH]; intros Hok; [reflexivity|].
  simpl in Hok. unfold matchesb at 1 in Hok.
  simpl. mrun.
  destruct (Py.eq_str _ (token_issuer me));
    [destruct (Py.eq_str _ (token_currency me))|]; simpl in Hok.
  - destruct Hok as [Hok|Hok]; [|discriminate Hok].
    rewrite Hok. apply IH. left. exact Hok.
  - apply IH. exact Hok.
  - apply IH. exact Hok.
Qed.


(** The deciding loop on records: it returns, leaves the state alone, and
    answers [true] exactly on a usable trust line. *)
Lemma find_line_records (me : TrustLineChecker)
    (l : list (gmap string json)) (s : State) :
  exists b, TrustLineChecker.find_line me (JObj <$> l) s = (inr b, s) /\
            (b = true <-> usable_trust_line me l).
Proof.
  induction l as [|e l IH].
  - exists false. split; [reflexivity|]. split; [discriminate|].
    intros (pre & e & post & v & (Heq & _) & _). destruct pre; discriminate.
  - simpl. mrun.
    destruct (Py.eq_str _ (token_issuer me)) eqn:Ha;
      [destruct (Py.eq_str _ (token_currency me)) eqn:Hc|].
    + assert (Hm : matches me e)
        by (apply matchesb_spec; unfold matchesb; rewrite Ha, Hc; reflexivity).
      assert (Hf : first_match me (e :: l) [] e l)
        by (repeat split; [constructor | apply Hm | apply Hm]).
      eexists. split; [reflexivity|].
      rewrite negb_true_iff, eq_str_false. split.
      * intros Hv. destruct (e !! "limit") as [v|] eqn:Hl; [|congruence].
        exists [], e, l, v. auto.
      * intros (pre & e' & post & v & Hf' & Hl & Hv).
        destruct (first_match_unique _ _ _ _ _ _ _ _ Hf Hf') as (_ & <- & _).
        rewrite Hl. exact Hv.
    + destruct IH as (b & Hb & Hiff). exists b. split; [exact Hb|].
      rewrite Hiff. clear Hb Hiff.
      assert (Hn : ~ matches me e).
      { rewrite <- matchesb_spec. unfold matchesb. rewrite Ha, Hc.
        discriminate. }
      split.
      * intros (pre & e' & post & v & (-> & Hp & Hm) & Hl & Hv).
        exists (e :: pre), e', post, v. repeat split; auto; apply Hm.
      * intros (pre & e' & post & v & (Heq & Hp & Hm) & Hl & Hv).
        destruct pre as [|x pre]; simpl in Heq.
        -- injection Heq as -> _. contradiction.
        -- injection Heq as -> ->. inversion Hp; subst.
           exists pre, e', post, v. repeat split; auto; apply Hm.
    + destruct IH as (b & Hb & Hiff). exists b. split; [exact Hb|].
      rewrite Hiff. clear Hb Hiff.
      assert (Hn : ~ matches me e).
      { rewrite <- matchesb_spec. unfold matchesb. rewrite Ha.
        discriminate. }
      split.
      * intros (pre & e' & post & v & (-> & Hp & Hm) & Hl & Hv).
        exists (e :: pre), e', post, v. repeat split; auto; apply Hm.
      * intros (pre & e' & post & v & (Heq & Hp & Hm) & Hl & Hv).
        destruct pre as [|x pre]; simpl in Heq.
        -- injection Heq as -> _. contradiction.
        -- injection Heq as -> ->. inversion Hp; subst.
           exists pre, e', post, v. repeat split; auto; apply Hm.
Qed.

(** On an answer without error field whose trust lines are the list [items],
    the body of [check_trustline] is the printing loop, then the deciding
    loop. *)
Lemma body_on_list (w : World) (wallet_address : string) (s : State)
    (c : AsyncWebsocketClient) (result : gmap string json)
    (items : list json) :
  client (self s) = Some c ->
  ws_request w (calls s) wallet_address = inr result ->
  result !! "error" = None ->
  match result !! "lines" with Some v => v | None => JArr [] end
    = JArr items ->
  TrustLineChecker.check_trustline_body w wallet_address s
  = (run TrustLineChecker.show_lines w (self s) items;
     TrustLineChecker.find_line (self s) items) (requested s wallet_address).
Proof.
  intros Hc Hr He Hl. unfold TrustLineChecker.check_trustline_body.
  unfold bind at 1 2. unfold Client.request. rewrite Hc, Hr, He, Hl.
  fold (requested s wallet_address).
  destruct items as [|v items]; [reflexivity|].
  unfold bind, lift, Console.say, ret.
  cbn [Py.truthy Py.len Py.iter negb length Nat.eqb].
  destruct (TrustLineChecker.show_lines w (self s) (v :: items)
              (requested s wallet_address)) as [[e|u] s1]; reflexivity.
Qed.

(** On an answer without error field whose trust lines are the records [l],
    the body of [check_trustline] is the deciding loop over [l], when the
    console prints the star or no record matches. *)
Lemma body_on_records (w : World) (wallet_address : string) (s : State)
    (c : AsyncWebsocketClient) (result : gmap string json)
    (l : list (gmap string json)) :
  client (self s) = Some c ->
  ws_request w (calls s) wallet_address = inr result ->
  result !! "error" = None ->
  match result !! "lines" with Some v => v | None => JArr [] end
    = JArr (JObj <$> l) ->
  stdout w Star = None \/ existsb (matchesb (self s)) l = false ->
  TrustLineChecker.check_trustline_body w wallet_address s
  = TrustLineChecker.find_line (self s) (JObj <$> l)
      (requested s wallet_address).
Proof.
  intros Hc Hr He Hl Hok.
  rewrite (body_on_list w wallet_address s c result _ Hc Hr He Hl).
  unfold bind. rewrite (show_lines_records w (self s) l _ Hok). reflexivity.
Qed.

Lemma check_trustline_on_records (w : World) (wallet_address : string)
    (s : State) (c : AsyncWebsocketClient) (result : gmap string json)
    (l : list (gmap string json)) :
  client (self s) = Some c ->
  ws_request w (calls s) wallet_address = inr result ->
  result !! "error" = None ->
  match result !! "lines" with Some v => v | None => JArr [] end
    = JArr (JObj <$> l) ->
  stdout w Star = None \/ existsb (matchesb (self s)) l = false ->
  exists b,
    TrustLineChecker.check_trustline w wallet_address s
    = (inr b, requested s wallet_address) /\
    (b = true <-> usable_trust_line (self s) l).
Proof.
  intros Hc Hr He Hl Hok. unfold TrustLineChecker.check_trustline, try_except.
  rewrite (body_on_records w wallet_address s c result l Hc Hr He Hl Hok).
  destruct (find_line_records (self s) l (requested s wallet_address))
    as (b & -> & Hb).
  exists b. split; [reflexivity | exact Hb].
Qed.


(** ** The evaluator *)

(** C1.  The code at a failing input: the ledger answers the query for a
    wallet with records whose first match for issuer and currency has the
    limit ["100"], a usable trust line, and the console cannot encode the
    star that line 67 prints for a matching record.  The print raises inside
    the [try], and [check_trustline] answers [false]. *)
Theorem check_trustline_star_not_printed :
  client (self demo_state) = Some demo_client /\
  ws_request demo_cp1252 (calls demo_state) "rA"
  = inr (<["lines" := JArr (JObj <$> demo_lines)]> ∅) /\
  usable_trust_line (self demo_state) demo_lines /\
  TrustLineChecker.check_trustline demo_cp1252 "rA" demo_state
  = (inr false, requested demo_state "rA").
Proof.
  split; [reflexivity|]. split; [reflexivity|]. split; [|reflexivity].
  exists [trust_line "rOther" "USD" "7"], (trust_line "rABC123" "USD" "100"),
         [trust_line "rABC123" "USD" "0"], (JStr "100").
  split; [|split; [reflexivity | discriminate]].
  split; [reflexivity|]. split; [|split; reflexivity].
  constructor; [|constructor]. intros [Ha _]. vm_compute in Ha.
  discriminate Ha.
Qed.

(** X27.  On a successful ledger answer (no error field) whose trust-line
    list is the records [l], and on a console that prints the star,
    [check_trustline] returns, and it returns [true] if and only if,
    scanning [l] in the order returned, there is a first record whose
    account is the normalized issuer and whose currency is the target
    currency (string equality), and the limit field of that first match is
    not the string ["0"]; in every other case it returns [false]. *)
Theorem check_trustline_first_match_decides (w : World)
    (wallet_address : string) (s : State) (c : AsyncWebsocketClient)
    (result : gmap string json) (l : list (gmap string json)) :
  client (self s) = Some c ->
  ws_request w (calls s) wallet_address = inr result ->
  result !! "error" = None ->
  result !! "lines" = Some (JArr (JObj <$> l)) ->
  stdout w Star = None ->
  exists b,
    fst (TrustLineChecker.check_trustline w wallet_address s) = inr b /\
    (b = true <-> usable_trust_line (self s) l) /\
    (b = false <-> ~ usable_trust_line (self s) l).
Proof.
  intros Hc Hr He Hl Hstar.
  destruct (check_trustline_on_records w wallet_address s c result l Hc Hr He)
    as (b & Heq & Hb); [rewrite Hl; reflexivity | left; exact Hstar |].
  exists b. rewrite Heq. split; [reflexivity|]. split; [exact Hb|].
  rewrite <- Hb. destruct b; split; congruence.
Qed.

Lemma check_trustline_first_match_decides_witness :
  exists b,
    fst (TrustLineChecker.check_trustline demo "rA" demo_state) = inr b /\
    (b = true <-> usable_trust_line (self demo_state) demo_lines) /\
    (b = false <-> ~ usable_trust_line (self demo_state) demo_lines).
Proof.
  apply (check_trustline_first_match_decides demo "rA" demo_state demo_client
           (<["lines" := JArr (JObj <$> demo_lines)]> ∅) demo_lines);
    reflexivity.
Defined.




(** Outside the records: an entry that is no record makes the printing loop
    raise, and the answer is [false] whatever stands before it; a limit that
    is the number 0 is not the string ["0"]. *)
Example check_trustline_on_other_values :
  fst (TrustLineChecker.check_trustline demo_malformed "rA" demo_state)
  = inr false /\
  fst (TrustLineChecker.find_line (self demo_state)
         [JObj (<["limit" := JInt 0]> (trust_line "rABC123" "USD" "0"))]
         demo_state)
  = inr true.
Proof. split; reflexivity. Qed.








(** ** Steps that leave the state alone *)

Lemma silent_ret {A : Type} (a : A) : silent (ret a).
Proof. intros s. reflexivity. Qed.

Lemma silent_lift {A : Type} (r : Result A) : silent (lift r).
Proof. intros s. reflexivity. Qed.

Lemma silent_say (text : string) : silent (Console.say text).
Proof. intros s. reflexivity. Qed.

Lemma silent_say_mark (w : World) (m : mark) (text : string) :
  silent (Console.say_mark w m text).
Proof. intros s. reflexivity. Qed.

Lemma silent_bind {A B : Type} (m : M A) (k : A -> M B) :
  silent m -> (forall a, silent (k a)) -> silent (bind m k).
Proof.
  intros Hm Hk s. unfold bind. specialize (Hm s).
  destruct (m s) as [[e|a] s1]; simpl in Hm; subst; [reflexivity|apply Hk].
Qed.

Lemma silent_if {A : Type} (b : bool) (m1 m2 : M A) :
  silent m1 -> silent m2 -> silent (if b then m1 else m2).
Proof. destruct b; auto. Qed.

Create HintDb silent.
#[local] Hint Resolve silent_ret silent_lift silent_say silent_say_mark
  silent_bind silent_if : silent.

Lemma silent_show_lines (w : World) (me : TrustLineChecker)
    (lines : list json) :
  silent (TrustLineChecker.show_lines w me lines).
Proof.
  induction lines as [|line rest IH]; simpl; auto 30 with silent.
Qed.

Lemma silent_find_line (me : TrustLineChecker) (lines : list json) :
  silent (TrustLineChecker.find_line me lines).
Proof.
  induction lines as [|line rest IH]; simpl; auto 20 with silent.
Qed.

#[local] Hint Resolve silent_show_lines silent_find_line : silent.

(** ** One evaluation never raises *)

Lemma check_trustline_returns (w : World) (wallet_address : string) (s : State) :
  exists b s1,
    TrustLineChecker.check_trustline w wallet_address s = (inr b, s1).
Proof.
  unfold TrustLineChecker.check_trustline, try_except.
  destruct (TrustLineChecker.check_trustline_body w wallet_address s)
    as [[e|b] s1]; mrun; eauto.
Qed.

Lemma check_trustline_raised (w : World) (wallet_address : string)
    (s s1 : State) (e : exn) :
  TrustLineChecker.check_trustline_body w wallet_address s = (inl e, s1) ->
  TrustLineChecker.check_trustline w wallet_address s = (inr false, s1).
Proof.
  intros H. unfold TrustLineChecker.check_trustline, try_except.
  rewrite H. reflexivity.
Qed.

(** The state after the body: one more request when there is a client,
    nothing otherwise; the checker itself is never changed. *)
Lemma body_state (w : World) (wallet_address : string) (s : State) :
  snd (TrustLineChecker.check_trustline_body w wallet_address s)
  = match client (self s) with
    | Some _ => requested s wallet_address
    | None => s
    end.
Proof.
  unfold TrustLineChecker.check_trustline_body.
  unfold bind at 1 2. unfold Client.request.
  destruct (client (self s)) as [c|]; [|reflexivity].
  fold (requested s wallet_address).
  destruct (ws_request w (calls s) wallet_address) as [e|result];
    [reflexivity|].
  destruct (result !! "error"); [reflexivity|].
  match goal with |- snd (?m _) = _ => assert (Hs : silent m) end.
  { auto 30 with silent. }
  apply Hs.
Qed.

Lemma check_trustline_state (w : World) (wallet_address : string) (s : State) :
  snd (TrustLineChecker.check_trustline w wallet_address s)
  = match client (self s) with
    | Some _ => requested s wallet_address
    | None => s
    end.
Proof.
  rewrite <- (body_state w).
  unfold TrustLineChecker.check_trustline, try_except.
  destruct (TrustLineChecker.check_trustline_body w wallet_address s)
    as [[e|b] s1]; reflexivity.
Qed.

(** ** The batch *)

Lemma batch_state_nil (s : State) : batch_state s [] = s.
Proof.
  unfold batch_state. destruct s as [me cs]. simpl.
  destruct (client me); [rewrite app_nil_r|]; reflexivity.
Qed.

Lemma batch_state_cons (w : World) (s : State) (a : string)
    (rest : list string) :
  batch_state (snd (TrustLineChecker.check_trustline w a s)) rest
  = batch_state s (a :: rest).
Proof.
  rewrite check_trustline_state. unfold batch_state, requested.
  destruct (client (self s)) eqn:Hc; simpl; [|rewrite Hc; reflexivity].
  rewrite Hc, <- app_assoc. reflexivity.
Qed.

Lemma statuses_addresses (w : World) (wallets : list string) :
  forall s, map address (statuses w wallets s) = wallets.
Proof.
  induction wallets as [|a rest IH]; intros s; [reflexivity|].
  simpl. destruct (TrustLineChecker.check_trustline w a s) as [r s1].
  simpl. rewrite IH. reflexivity.
Qed.

(** One turn of the loop of [check_wallets]: the evaluation, which returns,
    then the status line, then the rest of the loop. *)
Lemma check_wallets_from_turn (w : World) (results : list WalletStatus)
    (a : string) (rest : list string) (s s1 : State) (b : bool) :
  TrustLineChecker.check_trustline w a s = (inr b, s1) ->
  TrustLineChecker.check_wallets_from w results (a :: rest) s
  = match stdout w (if b then CheckMark else CrossMark) with
    | Some err => (inl err, s1)
    | None =>
        TrustLineChecker.check_wallets_from w
          (results ++ [{| address := a; has_trustline := b |}]) rest s1
    end.
Proof.
  intros Hb. simpl. unfold bind at 1. rewrite Hb.
  unfold bind, Console.say_mark, Console.say, ret.
  destruct (stdout w (if b then CheckMark else CrossMark)); reflexivity.
Qed.

(** The loop of [check_wallets] on a console that prints the status lines,
    from any list of results collected so far: it returns, and it appends
    one status per wallet, in order. *)
Lemma check_wallets_from_spec (w : World) (wallets : list string) :
  marks_printable w ->
  forall (results : list WalletStatus) (s : State),
    TrustLineChecker.check_wallets_from w results wallets s
    = (inr (results ++ statuses w wallets s), batch_state s wallets).
Proof.
  intros [Hcheck Hcross].
  induction wallets as [|a rest IH]; intros results s.
  - simpl. unfold ret. rewrite app_nil_r, batch_state_nil. reflexivity.
  - rewrite <- (batch_state_cons w s a rest).
    destruct (check_trustline_returns w a s) as (b & s1 & Hb).
    rewrite (check_wallets_from_turn w results a rest s s1 b Hb).
    simpl statuses. rewrite Hb. simpl.
    destruct b; [rewrite Hcheck | rewrite Hcross];
      rewrite IH, <- app_assoc; reflexivity.
Qed.

(** When the loop returns, it has appended one status per wallet. *)
Lemma check_wallets_from_returned (w : World) (wallets : list string) :
  forall (results rs : list WalletStatus) (s s2 : State),
    TrustLineChecker.check_wallets_from w results wallets s = (inr rs, s2) ->
    rs = results ++ statuses w wallets s /\ s2 = batch_state s wallets.
Proof.
  induction wallets as [|a rest IH]; intros results rs s s2 H.
  - simpl in H. unfold ret in H. injection H as <- <-.
    rewrite app_nil_r, batch_state_nil. auto.
  - rewrite <- (batch_state_cons w s a rest).
    destruct (check_trustline_returns w a s) as (b & s1 & Hb).
    rewrite (check_wallets_from_turn w results a rest s s1 b Hb) in H.
    simpl statuses. rewrite Hb. simpl.
    destruct (stdout w (if b then CheckMark else CrossMark));
      [discriminate H|].
    destruct (IH _ _ _ _ H) as [-> ->].
    rewrite <- app_assoc. auto.
Qed.

(** Whatever happens, the loop has asked for the first wallets of its list,
    one request each, and has changed nothing else. *)
Lemma check_wallets_from_asked (w : World) (wallets : list string) :
  forall (results : list WalletStatus) (s : State),
  exists k,
    snd (TrustLineChecker.check_wallets_from w results wallets s)
    = batch_state s (take k wallets).
Proof.
  induction wallets as [|a rest IH]; intros results s.
  - exists 0. simpl. rewrite batch_state_nil. reflexivity.
  - destruct (check_trustline_returns w a s) as (b & s1 & Hb).
    rewrite (check_wallets_from_turn w results a rest s s1 b Hb).
    assert (Hs1 : s1 = snd (TrustLineChecker.check_trustline w a s))
      by (rewrite Hb; reflexivity).
    destruct (stdout w (if b then CheckMark else CrossMark)).
    + exists 1. change (take 1 (a :: rest)) with [a].
      rewrite <- (batch_state_cons w s a []), <- Hs1.
      rewrite batch_state_nil. reflexivity.
    + destruct (IH (results ++ [{| address := a; has_trustline := b |}]) s1)
        as [k Hk].
      exists (S k). rewrite Hk.
      change (take (S k) (a :: rest)) with (a :: take k rest).
      rewrite <- (batch_state_cons w s a (take k rest)), <- Hs1. reflexivity.
Qed.

(** After an evaluation of [a] that returned [b], on a console that prints
    the status lines, the batch goes on with the rest: every later address
    is evaluated and gets its status. *)
Lemma batch_goes_on (w : World) (a : string) (rest : list string)
    (s s1 : State) (b : bool) :
  marks_printable w ->
  TrustLineChecker.check_trustline w a s = (inr b, s1) ->
  exists rs,
    TrustLineChecker.check_wallets w rest s1 = (inr rs, batch_state s1 rest) /\
    map address rs = rest /\
    TrustLineChecker.check_wallets w (a :: rest) s
    = (inr ({| address := a; has_trustline := b |} :: rs),
       batch_state s1 rest).
Proof.
  intros Hp Hb. unfold TrustLineChecker.check_wallets.
  exists (statuses w rest s1). rewrite !(check_wallets_from_spec w _ Hp).
  split; [reflexivity|]. split; [apply statuses_addresses|].
  simpl. rewrite <- (batch_state_cons w s a rest), Hb. reflexivity.
Qed.

Lemma batch_state_calls (s : State) (wallets : list string)
    (c : AsyncWebsocketClient) :
  client (self s) = Some c ->
  calls (batch_state s wallets) = calls s ++ map Request wallets.
Proof. intros Hc. unfold batch_state. rewrite Hc. reflexivity. Qed.

(** C2.  The code at a failing input: a batch of one wallet, on a console
    that cannot encode the check mark and the cross that line 90 prints
    after each evaluation.  The wallet is asked for, the print raises
    outside any [try], and [check_wallets] raises instead of returning one
    status per address. *)
Theorem check_wallets_status_line_raises :
  TrustLineChecker.check_trustline demo_cp1252 "rD" demo_state
  = (inr false, requested demo_state "rD") /\
  TrustLineChecker.check_wallets demo_cp1252 ["rD"] demo_state
  = (inl (UnicodeEncodeError "'charmap' codec can't encode character"),
     requested demo_state "rD") /\
  forall results s1,
    TrustLineChecker.check_wallets demo_cp1252 ["rD"] demo_state
    <> (inr results, s1).
Proof.
  split; [reflexivity|]. split; [reflexivity|].
  intros results s1 H. vm_compute in H. discriminate H.
Qed.

(** X29.  On a console that prints the status lines, [check_wallets]
    returns for every sequence of addresses a result sequence of the same
    length, with exactly one WalletStatus per input address, carrying that
    address, in the order of the input. *)
Theorem check_wallets_one_status_per_address (w : World)
    (wallets : list string) (s : State) :
  marks_printable w ->
  exists results s1,
    TrustLineChecker.check_wallets w wallets s = (inr results, s1) /\
    length results = length wallets /\
    map address results = wallets /\
    forall (i : nat) (a : string),
      wallets !! i = Some a ->
      exists b, results !! i = Some {| address := a; has_trustline := b |}.
Proof.
  intros Hp.
  exists (statuses w wallets s), (batch_state s wallets).
  assert (Hmap := statuses_addresses w wallets s).
  split; [apply (check_wallets_from_spec w wallets Hp)|].
  split; [rewrite <- Hmap at 2; symmetry; apply length_map|].
  split; [exact Hmap|].
  intros i a Hi. rewrite <- Hmap in Hi. rewrite list_lookup_fmap in Hi.
  destruct (statuses w wallets s !! i) as [[a' b]|]; [|discriminate].
  simpl in Hi. injection Hi as ->. exists b. reflexivity.
Qed.

Lemma check_wallets_one_status_per_address_witness :
  exists results s1,
    TrustLineChecker.check_wallets demo ["rA"; "rB"] demo_state
    = (inr results, s1) /\
    length results = length ["rA"; "rB"] /\
    map address results = ["rA"; "rB"] /\
    forall (i : nat) (a : string),
      ["rA"; "rB"] !! i = Some a ->
      exists b, results !! i = Some {| address := a; has_trustline := b |}.
Proof.
  apply (check_wallets_one_status_per_address demo ["rA"; "rB"] demo_state).
  split; reflexivity.
Defined.




(** When the evaluation of an address raises, the exception is caught
    inside [check_trustline], which returns [false] for that address; on a
    console that prints the status lines the batch then evaluates every
    later address of the sequence. *)
Lemma contained_exception_then_batch (w : World) (a : string)
    (rest : list string) (s s1 : State) (e : exn) :
  marks_printable w ->
  TrustLineChecker.check_trustline_body w a s = (inl e, s1) ->
  TrustLineChecker.check_trustline w a s = (inr false, s1) /\
  exists rs s2,
    TrustLineChecker.check_wallets w rest s1 = (inr rs, s2) /\
    map address rs = rest /\
    (forall c, client (self s1) = Some c ->
               calls s2 = calls s1 ++ map Request rest) /\
    TrustLineChecker.check_wallets w (a :: rest) s
    = (inr ({| address := a; has_trustline := false |} :: rs), s2).
Proof.
  intros Hp Hraise.
  assert (Hf := check_trustline_raised w a s s1 e Hraise).
  split; [exact Hf|].
  destruct (batch_goes_on w a rest s s1 false Hp Hf) as (rs & H1 & H2 & H3).
  exists rs, (batch_state s1 rest).
  repeat split; try assumption.
  intros c Hc. apply (batch_state_calls s1 rest c Hc).
Qed.


(** When the answer of the ledger carries an error field,
    [check_trustline] returns [false] and nothing is raised; on a console
    that prints the status lines the batch goes on with every later
    address. *)
Lemma error_field_then_batch (w : World) (a : string)
    (rest : list string) (s : State) (c : AsyncWebsocketClient)
    (result : gmap string json) (err : json) :
  marks_printable w ->
  client (self s) = Some c ->
  ws_request w (calls s) a = inr result ->
  result !! "error" = Some err ->
  TrustLineChecker.check_trustline_body w a s = (inr false, requested s a) /\
  TrustLineChecker.check_trustline w a s = (inr false, requested s a) /\
  exists rs s2,
    TrustLineChecker.check_wallets w rest (requested s a) = (inr rs, s2) /\
    map address rs = rest /\
    calls s2 = calls s ++ Request a :: map Request rest /\
    TrustLineChecker.check_wallets w (a :: rest) s
    = (inr ({| address := a; has_trustline := false |} :: rs), s2).
Proof.
  intros Hp Hc Hr He.
  assert (Hbody : TrustLineChecker.check_trustline_body w a s
                  = (inr false, requested s a)).
  { unfold TrustLineChecker.check_trustline_body. unfold bind at 1 2.
    unfold Client.request. rewrite Hc, Hr, He. reflexivity. }
  assert (Hf : TrustLineChecker.check_trustline w a s
               = (inr false, requested s a)).
  { unfold TrustLineChecker.check_trustline, try_except. rewrite Hbody.
    reflexivity. }
  split; [exact Hbody|]. split; [exact Hf|].
  destruct (batch_goes_on w a rest s _ false Hp Hf) as (rs & H1 & H2 & H3).
  exists rs, (batch_state (requested s a) rest).
  repeat split; try assumption.
  rewrite (batch_state_calls (requested s a) rest c Hc). simpl.
  rewrite <- app_assoc. reflexivity.
Qed.

(** ** The issuer of the target asset *)

Lemma contains_In (c : ascii) (s : string) :
  Py.contains c s = true <-> In c (String.list_ascii_of_string s).
Proof.
  induction s as [|d rest IH]; simpl.
  - split; [discriminate | tauto].
  - destruct (Ascii.eqb_spec d c) as [->|Hne].
    + split; auto.
    + rewrite IH. split; [auto | intros [H|H]; [contradiction | exact H]].
Qed.

Lemma split_not_nil (c : ascii) (s : string) : Py.split c s <> [].
Proof.
  destruct s as [|d rest]; simpl; [discriminate|].
  destruct (Ascii.eqb d c); [discriminate|].
  destruct (Py.split c rest); discriminate.
Qed.

Lemma split_without (c : ascii) (s : string) :
  Py.contains c s = false -> Py.split c s = [s].
Proof.
  induction s as [|d rest IH]; simpl; [reflexivity|].
  destruct (Ascii.eqb d c); [discriminate|].
  intros H. rewrite (IH H). reflexivity.
Qed.

Lemma last_cons_not_nil {A : Type} (x d : A) (l : list A) :
  l <> [] -> List.last (x :: l) d = List.last l d.
Proof. destruct l; [congruence | reflexivity]. Qed.

(** With a separator in [s], the last piece of the split is what follows
    the last separator. *)
Lemma split_last (c : ascii) (s : string) :
  Py.contains c s = true ->
  exists before,
    s = String.append before (String c (List.last (Py.split c s) EmptyString)) /\
    Py.contains c (List.last (Py.split c s) EmptyString) = false /\
    exists w x ws, Py.split c s = w :: x :: ws.
Proof.
  induction s as [|d rest IH]; simpl; [discriminate|].
  destruct (Ascii.eqb_spec d c) as [->|Hne].
  - intros _. rewrite (last_cons_not_nil _ _ _ (split_not_nil c rest)).
    destruct (Py.contains c rest) eqn:Hrest.
    + destruct (IH eq_refl) as (before & Heq & Hno & w & x & ws & Hsp).
      exists (String c before).
      split; [exact (f_equal (String c) Heq)|].
      split; [exact Hno|]. rewrite Hsp. eauto.
    + rewrite (split_without c rest Hrest). simpl.
      exists EmptyString. split; [reflexivity|]. split; [exact Hrest|]. eauto.
  - intros Hrest.
    destruct (IH Hrest) as (before & Heq & Hno & w & x & ws & Hsp).
    rewrite Hsp in *.
    change (List.last (String d w :: x :: ws) EmptyString)
      with (List.last (w :: x :: ws) EmptyString).
    exists (String d before).
    split; [exact (f_equal (String d) Heq)|].
    split; [exact Hno|]. eauto.
Qed.

(** An evaluation never changes the checker. *)
Lemma check_trustline_keeps_self (w : World) (a : string) (s : State) :
  self (snd (TrustLineChecker.check_trustline w a s)) = self s.
Proof.
  rewrite check_trustline_state. destruct (client (self s)); reflexivity.
Qed.

(** C4.  [__init__] stores as issuer the part of the configured issuer that
    follows its last ["."] when it contains one, and the configured issuer
    itself when it contains none; this is done at construction, and an
    evaluation compares with the stored value and leaves it as it is. *)
Theorem init_normalizes_issuer (websocket_url issuer currency : string) :
  (In "."%char (String.list_ascii_of_string issuer) ->
   exists before,
     issuer = String.append before
                (String "." (token_issuer
                   (TrustLineChecker.init websocket_url issuer currency))) /\
     ~ In "."%char
         (String.list_ascii_of_string
            (token_issuer (TrustLineChecker.init websocket_url issuer currency)))) /\
  (~ In "."%char (String.list_ascii_of_string issuer) ->
   token_issuer (TrustLineChecker.init websocket_url issuer currency) = issuer) /\
  (forall (w : World) (a : string) (s : State),
     self (snd (TrustLineChecker.check_trustline w a s)) = self s).
Proof.
  unfold TrustLineChecker.init. simpl. repeat split.
  - intros Hin. apply contains_In in Hin. rewrite Hin.
    destruct (split_last "." issuer Hin) as (before & Heq & Hno & _).
    exists before. split; [exact Heq|].
    rewrite <- contains_In, Hno. discriminate.
  - intros Hnot. rewrite <- contains_In in Hnot.
    destruct (Py.contains "." issuer); [contradiction Hnot|]; reflexivity.
  - apply check_trustline_keeps_self.
Qed.

Lemma init_normalizes_issuer_witness :
  exists before,
    "ns.rABC123"
    = String.append before
        (String "." (token_issuer
           (TrustLineChecker.init "wss://xrpl.example" "ns.rABC123" "USD"))) /\
    ~ In "."%char
        (String.list_ascii_of_string
           (token_issuer
              (TrustLineChecker.init "wss://xrpl.example" "ns.rABC123" "USD"))).
Proof.
  apply (proj1 (init_normalizes_issuer "wss://xrpl.example" "ns.rABC123" "USD")).
  simpl. tauto.
Defined.

(** The example of the issuer with a namespace. *)
Example init_namespaced_issuer :
  token_issuer (TrustLineChecker.init "wss://xrpl.example" "ns.rABC123" "USD")
  = "rABC123" /\
  token_issuer (TrustLineChecker.init "wss://xrpl.example" "a.b.rABC123" "USD")
  = "rABC123" /\
  token_issuer (TrustLineChecker.init "wss://xrpl.example" "rABC123" "USD")
  = "rABC123" /\
  token_issuer (TrustLineChecker.init "wss://xrpl.example" "rABC123." "USD")
  = "".
Proof. repeat split. Qed.

(** ** The final summary *)

Lemma sum_of_ones (results : list WalletStatus) (acc : Z) :
  fold_left Z.add
    (flat_map (fun r => if has_trustline r then [1%Z] else []) results) acc
  = (acc + Z.of_nat (length (List.filter has_trustline results)))%Z.
Proof.
  revert acc. induction results as [|r rest IH]; intros acc; simpl.
  - lia.
  - destruct (has_trustline r); simpl; rewrite IH; simpl length; lia.
Qed.

Lemma filter_split_length (results : list WalletStatus) :
  length results
  = length (List.filter has_trustline results)
    + length (List.filter (fun r => negb (has_trustline r)) results).
Proof.
  induction results as [|r rest IH]; simpl; [reflexivity|].
  destruct (has_trustline r); simpl; lia.
Qed.

Lemma comprehension_is_filter (results : list WalletStatus) :
  wallets_without_trustlines results
  = map address (List.filter (fun r => negb (has_trustline r)) results).
Proof.
  unfold wallets_without_trustlines.
  induction results as [|r rest IH]; simpl; [reflexivity|].
  destruct (has_trustline r); simpl; rewrite IH; reflexivity.
Qed.

(** C7.  The final summary is a function of the result sequence alone: the
    total is its length, the count with trust line is the number of entries
    whose flag is true, the count without is the total minus that count and
    is the number of entries whose flag is false, and the addresses without
    trust line are those of the entries whose flag is false, in the order of
    the sequence; on [(A,true); (B,false); (C,false)] it is total 3, one
    with, two without, and [B; C]. *)
Theorem final_summary_of_results (results : list WalletStatus) :
  total_wallets_checked (final_summary results) = Z.of_nat (length results) /\
  wallets_with_trustline (final_summary results)
  = Z.of_nat (length (List.filter has_trustline results)) /\
  wallets_without_trustline (final_summary results)
  = (total_wallets_checked (final_summary results)
     - wallets_with_trustline (final_summary results))%Z /\
  wallets_without_trustline (final_summary results)
  = Z.of_nat (length (List.filter (fun r => negb (has_trustline r)) results)) /\
  wallets_missing_trust_lines (final_summary results)
  = map address (List.filter (fun r => negb (has_trustline r)) results) /\
  final_summary [{| address := "A"; has_trustline := true |};
                 {| address := "B"; has_trustline := false |};
                 {| address := "C"; has_trustline := false |}]
  = {| total_wallets_checked := 3;
       wallets_with_trustline := 1;
       wallets_without_trustline := 2;
       wallets_missing_trust_lines := ["B"; "C"] |}.
Proof.
  unfold final_summary, trustlines_count. simpl.
  rewrite !sum_of_ones, comprehension_is_filter.
  assert (H := filter_split_length results).
  repeat split; lia.
Qed.

(** ** The top-level run *)

Lemma truthy_opt_true (o : option string) :
  Py.truthy_opt o = true <-> exists s, o = Some s /\ s <> "".
Proof.
  destruct o as [s|]; simpl.
  - rewrite negb_true_iff. destruct (String.eqb_spec s ""); split.
    + discriminate.
    + intros (s' & [= <-] & Hne). contradiction.
    + eauto.
    + reflexivity.
  - split; [discriminate | intros (s & H & _); discriminate].
Qed.

(** Without the three settings [main] returns at once and calls nothing. *)
Lemma main_not_configured (w : World) (f : Frame) :
  ~ configured w -> main w f = (inr tt, f).
Proof.
  intros Hn. unfold main.
  destruct (forallb _ _) eqn:Hall; [|reflexivity].
  exfalso. apply Hn. simpl in Hall.
  rewrite !andb_true_iff, !truthy_opt_true in Hall.
  destruct Hall as ((u & Hu & Hu') & (i & Hi & Hi') & (c & Hc & Hc') & _).
  exists u, i, c. auto 10.
Qed.

Lemma closes_requests (cs : list event) (wallets : list string) :
  closes (cs ++ map Request wallets) = closes cs /\
  opens (cs ++ map Request wallets) = opens cs.
Proof.
  unfold closes, opens. rewrite !List.filter_app, !length_app.
  assert (H : List.filter is_close (map Request wallets) = [] /\
              List.filter is_open (map Request wallets) = []).
  { induction wallets as [|a rest [IH1 IH2]]; simpl; auto. }
  destruct H as [-> ->]. simpl. lia.
Qed.

(** A configured run, step by step. *)
Lemma main_configured_run (w : World) (u i c : string) :
  getenv w "XRPL_WEBSOCKET_URL" = Some u -> u <> "" ->
  getenv w "TOKEN_ISSUER" = Some i -> i <> "" ->
  getenv w "TOKEN_CURRENCY" = Some c -> c <> "" ->
  main w start
  = match load_wallets w (default "wallets.csv" (getenv w "INPUT_CSV")) with
    | inl _ => (inr tt, start)
    | inr wallets =>
        match ws_open w [] u with
        | Some _ =>
            (close_outcome w [Open u],
             {| checker := Some (connected_checker u i c);
                made := [Open u; Close];
                summary := None |})
        | None =>
            match TrustLineChecker.check_wallets w wallets
                    {| self := connected_checker u i c;
                       calls := [Open u] |} with
            | (r, s1) =>
                (close_outcome w (calls s1),
                 {| checker := Some (connected_checker u i c);
                    made := calls s1 ++ [Close];
                    summary :=
                      match r with
                      | inl _ => None
                      | inr results =>
                          match to_csv w
                                  (default "trustline_status.csv"
                                     (getenv w "OUTPUT_CSV"))
                                  (result_rows results) with
                          | Some _ => None
                          | None => Some (final_summary results)
                          end
                      end |})
            end
        end
    end.
Proof.
  intros Hu Hu' Hi Hi' Hc Hc'.
  unfold main. rewrite Hu, Hi, Hc.
  apply String.eqb_neq in Hu', Hi', Hc'.
  unfold forallb, Py.truthy_opt. rewrite Hu', Hi', Hc'.
  simpl negb. cbv iota.
  unfold bind at 1. unfold Console.say at 1. unfold ret at 1.
  unfold bind at 1. unfold Console.say at 1. unfold ret at 1.
  unfold try_finally, try_except.
  unfold bind at 1. unfold lift at 1.
  destruct (load_wallets w _) as [e|wallets]; [reflexivity|].
  unfold bind at 1. unfold bind_checker at 1. simpl.
  unfold bind at 1. unfold call at 1. simpl.
  unfold TrustLineChecker.connect, bind, Client.assign, Client.open,
    Console.say, ret.
  simpl.
  destruct (ws_open w [] u) as [e|].
  - simpl. unfold call, TrustLineChecker.close, bind, Client.close,
      close_outcome, Console.say, ret. simpl.
    destruct (ws_close w _); reflexivity.
  - unfold call at 1. simpl.
    unfold TrustLineChecker.check_wallets, connected_checker. simpl.
    match goal with
    | |- context [TrustLineChecker.check_wallets_from w [] wallets ?st] =>
        destruct (check_wallets_from_asked w wallets [] st) as [k Hk];
        destruct (TrustLineChecker.check_wallets_from w [] wallets st)
          as [r s1]
    end.
    simpl in Hk. subst s1. unfold batch_state. simpl.
    unfold save_results, result_rows.
    destruct r as [e|results]; simpl.
    + unfold call, TrustLineChecker.close, bind, Client.close,
        close_outcome, Console.say, ret. simpl.
      destruct (ws_close w _); reflexivity.
    + destruct (to_csv w _ _) as [e|]; simpl;
        unfold print_summary, call, TrustLineChecker.close, bind,
          Client.close, close_outcome, Console.say, ret; simpl;
        destruct (ws_close w _); reflexivity.
Qed.

(** The calls of a configured run: none when the wallets cannot be loaded;
    otherwise one open, a request per wallet evaluated, and one close that
    comes last. *)
Lemma main_configured_calls (w : World) :
  configured w ->
  (made (snd (main w start)) = [] /\ checker (snd (main w start)) = None) \/
  (exists u wallets,
     made (snd (main w start)) = Open u :: map Request wallets ++ [Close] /\
     session_created (snd (main w start))).
Proof.
  intros (u & i & c & Hu & Hu' & Hi & Hi' & Hc & Hc').
  rewrite (main_configured_run w u i c Hu Hu' Hi Hi' Hc Hc').
  destruct (load_wallets w _) as [e|wallets]; [left; split; reflexivity|].
  right. exists u.
  destruct (ws_open w [] u) as [e|].
  - exists []. split; [reflexivity|]. eexists _, _. split; reflexivity.
  - destruct (check_wallets_from_asked w wallets []
                {| self := connected_checker u i c; calls := [Open u] |})
      as [k Hk].
    unfold TrustLineChecker.check_wallets.
    destruct (TrustLineChecker.check_wallets_from w [] wallets
                {| self := connected_checker u i c; calls := [Open u] |})
      as [r s1].
    simpl in Hk. subst s1. exists (take k wallets).
    split; [reflexivity|]. eexists _, _. split; reflexivity.
Qed.

Lemma configured_or_not (w : World) : configured w \/ ~ configured w.
Proof.
  unfold configured.
  destruct (Py.truthy_opt (getenv w "XRPL_WEBSOCKET_URL")) eqn:Hu;
    [|right; intros (u & i & c & H1 & H2 & _);
      assert (Ht : Py.truthy_opt (getenv w "XRPL_WEBSOCKET_URL") = true)
        by (apply truthy_opt_true; eauto); congruence].
  destruct (Py.truthy_opt (getenv w "TOKEN_ISSUER")) eqn:Hi;
    [|right; intros (u & i & c & _ & _ & H1 & H2 & _);
      assert (Ht : Py.truthy_opt (getenv w "TOKEN_ISSUER") = true)
        by (apply truthy_opt_true; eauto); congruence].
  destruct (Py.truthy_opt (getenv w "TOKEN_CURRENCY")) eqn:Hc;
    [|right; intros (u & i & c & _ & _ & _ & _ & H1 & H2);
      assert (Ht : Py.truthy_opt (getenv w "TOKEN_CURRENCY") = true)
        by (apply truthy_opt_true; eauto); congruence].
  left. apply truthy_opt_true in Hu, Hi, Hc.
  destruct Hu as (u & ? & ?), Hi as (i & ? & ?), Hc as (c & ? & ?).
  exists u, i, c. auto 10.
Qed.

(** C8.  When one of the three required settings is absent, [main] returns
    before any session exists and before any call on the client: the list
    of calls stays empty and [checker] is never bound. *)
Theorem main_missing_setting_calls_nothing (w : World) :
  getenv w "XRPL_WEBSOCKET_URL" = None \/
  getenv w "TOKEN_ISSUER" = None \/
  getenv w "TOKEN_CURRENCY" = None ->
  main w start = (inr tt, start) /\
  made (snd (main w start)) = [] /\
  opens (made (snd (main w start))) = 0 /\
  checker (snd (main w start)) = None.
Proof.
  intros Hmissing.
  assert (Hmain : main w start = (inr tt, start)).
  { apply main_not_configured.
    intros (u & i & c & Hu & _ & Hi & _ & Hc & _).
    destruct Hmissing as [H|[H|H]]; congruence. }
  rewrite Hmain. repeat split.
Qed.

Lemma main_missing_setting_calls_nothing_witness :
  main demo_no_issuer start = (inr tt, start) /\
  made (snd (main demo_no_issuer start)) = [] /\
  opens (made (snd (main demo_no_issuer start))) = 0 /\
  checker (snd (main demo_no_issuer start)) = None.
Proof.
  apply (main_missing_setting_calls_nothing demo_no_issuer).
  right. left. reflexivity.
Defined.

(** C6.  Whatever the world answers (success, an error on some query, an
    exception that reaches the top level), a run of [main] that created a
    session has closed it exactly once, in its [finally] step and as its
    last call; a run that created none has called nothing; and [close] on a
    checker whose client was never created does nothing and does not
    raise. *)
Theorem main_closes_session_once (w : World) :
  (session_created (snd (main w start)) ->
   closes (made (snd (main w start))) = 1 /\
   opens (made (snd (main w start))) = 1 /\
   exists before, made (snd (main w start)) = before ++ [Close]) /\
  (~ session_created (snd (main w start)) ->
   made (snd (main w start)) = []) /\
  (forall s : State,
     client (self s) = None -> TrustLineChecker.close w s = (inr tt, s)).
Proof.
  assert (Hcases :
    (made (snd (main w start)) = [] /\ checker (snd (main w start)) = None) \/
    (exists u wallets,
       made (snd (main w start)) = Open u :: map Request wallets ++ [Close] /\
       session_created (snd (main w start)))).
  { destruct (configured_or_not w) as [Hc|Hn].
    - apply (main_configured_calls w Hc).
    - left. rewrite (main_not_configured w start Hn). split; reflexivity. }
  split; [|split].
  - intros Hs. destruct Hcases as [[_ Hno]|(u & wallets & Hcalls & _)].
    + destruct Hs as (me & c & Hme & _). congruence.
    + rewrite Hcalls.
      change (Open u :: map Request wallets ++ [Close])
        with (([Open u] ++ map Request wallets) ++ [Close]).
      split; [|split; [|eexists; reflexivity]].
      * unfold closes. rewrite List.filter_app, length_app.
        fold (closes ([Open u] ++ map Request wallets)).
        rewrite (proj1 (closes_requests [Open u] wallets)). reflexivity.
      * unfold opens. rewrite List.filter_app, length_app.
        fold (opens ([Open u] ++ map Request wallets)).
        rewrite (proj2 (closes_requests [Open u] wallets)). reflexivity.
  - intros Hn. destruct Hcases as [[Hnone _]|(u & wallets & _ & Hs)].
    + exact Hnone.
    + contradiction.
  - intros s Hc. unfold TrustLineChecker.close, bind. simpl.
    rewrite Hc. reflexivity.
Qed.

Lemma main_closes_session_once_witness :
  closes (made (snd (main demo start))) = 1 /\
  opens (made (snd (main demo start))) = 1 /\
  exists before, made (snd (main demo start)) = before ++ [Close].
Proof.
  apply (proj1 (main_closes_session_once demo)).
  eexists _, _. split; reflexivity.
Defined.

(** The calls of the sample runs, one per way out of [main]. *)
Example main_exit_paths :
  made (snd (main demo start))
  = [Open "wss://xrpl.example"; Request "rA"; Request "rB"; Request "rC";
     Request "rD"; Request "rE"; Close] /\
  made (snd (main demo_no_csv start)) = [] /\
  made (snd (main demo_unreachable start))
  = [Open "wss://xrpl.example"; Close] /\
  made (snd (main demo_read_only start))
  = [Open "wss://xrpl.example"; Request "rA"; Request "rB"; Request "rC";
     Request "rD"; Request "rE"; Close] /\
  summary (snd (main demo_read_only start)) = None /\
  main demo_bad_close start
  = (inl (RemoteError "already closed"), snd (main demo_bad_close start)) /\
  closes (made (snd (main demo_bad_close start))) = 1 /\
  summary (snd (main demo start))
  = Some {| total_wallets_checked := 5;
            wallets_with_trustline := 1;
            wallets_without_trustline := 4;
            wallets_missing_trust_lines := ["rB"; "rC"; "rD"; "rE"] |}.
Proof. repeat split. Qed.

(** * Further properties of the code *)

(** ** Steps with one outcome *)

Lemma constant_ret {A : Type} (a : A) : constant_step (ret a).
Proof. exists (inr a). reflexivity. Qed.

Lemma constant_lift {A : Type} (r : Result A) : constant_step (lift r).
Proof. exists r. reflexivity. Qed.

Lemma constant_bind {A B : Type} (m : M A) (k : A -> M B) :
  constant_step m -> (forall a, constant_step (k a)) ->
  constant_step (bind m k).
Proof.
  intros [r Hm] Hk. destruct r as [e|a].
  - exists (inl e). intros s. unfold bind. rewrite Hm. reflexivity.
  - destruct (Hk a) as [r Hr]. exists r. intros s. unfold bind.
    rewrite Hm. apply Hr.
Qed.

Lemma constant_if {A : Type} (b : bool) (m1 m2 : M A) :
  constant_step m1 -> constant_step m2 ->
  constant_step (if b then m1 else m2).
Proof. destruct b; auto. Qed.

Lemma constant_say (text : string) : constant_step (Console.say text).
Proof. exists (inr tt). reflexivity. Qed.

Lemma constant_say_mark (w : World) (m : mark) (text : string) :
  constant_step (Console.say_mark w m text).
Proof. eexists. reflexivity. Qed.

Create HintDb constant.
#[local] Hint Resolve constant_ret constant_lift constant_say
  constant_say_mark constant_bind constant_if : constant.

Lemma constant_show_lines (w : World) (me : TrustLineChecker)
    (lines : list json) :
  constant_step (TrustLineChecker.show_lines w me lines).
Proof.
  induction lines as [|line rest IH]; simpl; auto 30 with constant.
Qed.

Lemma constant_find_line (me : TrustLineChecker) (lines : list json) :
  constant_step (TrustLineChecker.find_line me lines).
Proof.
  induction lines as [|line rest IH]; simpl; auto 20 with constant.
Qed.

#[local] Hint Resolve constant_show_lines constant_find_line : constant.

(** ** The evaluator on any answer *)

(** The printing loop gets through only on records. *)
Lemma show_lines_returns_records (w : World) (me : TrustLineChecker)
    (items : list json) (s : State) :
  fst (TrustLineChecker.show_lines w me items s) = inr tt ->
  exists l : list (gmap string json), items = JObj <$> l.
Proof.
  induction items as [|v items IH]; intros H.
  - exists []. reflexivity.
  - destruct v as [| | | | |l0|m]; try (simpl in H; discriminate H).
    destruct IH as [l Hl].
    + simpl in H. revert H. mrun.
      destruct (Py.eq_str _ (token_issuer me));
        [destruct (Py.eq_str _ (token_currency me));
         [destruct (stdout w Star); [discriminate|]|]|]; auto.
    + exists (m :: l). simpl. rewrite Hl. reflexivity.
Qed.

(** The body from the answer on. *)
Lemma body_after_answer (w : World) (a : string) (s : State)
    (c : AsyncWebsocketClient) (result : gmap string json) :
  client (self s) = Some c ->
  ws_request w (calls s) a = inr result ->
  TrustLineChecker.check_trustline_body w a s
  = after_answer w (self s) result (requested s a).
Proof.
  intros Hc Hr. unfold TrustLineChecker.check_trustline_body.
  unfold bind at 1 2. unfold Client.request. rewrite Hc, Hr.
  reflexivity.
Qed.

(** When the trust lines of the answer are not a list of records, the body
    does not return [true]. *)
Lemma lines_not_records (w : World) (me : TrustLineChecker)
    (result : gmap string json) (s s1 : State) :
  result !! "error" = None ->
  after_answer w me result s = (inr true, s1) ->
  exists l : list (gmap string json),
    match result !! "lines" with Some v => v | None => JArr [] end
    = JArr (JObj <$> l).
Proof.
  intros He. unfold after_answer. rewrite He.
  generalize (match result !! "lines" with Some v => v | None => JArr [] end).
  intros lines H. cbv zeta in H.
  destruct lines as [|b|n|f|str|items|m].
  - revert H. mrun. discriminate.
  - revert H. destruct b; mrun; discriminate.
  - revert H. simpl Py.truthy. destruct (negb (negb (n =? 0)%Z)); mrun;
      discriminate.
  - revert H. destruct f; mrun; discriminate.
  - destruct str as [|ch str].
    + revert H. mrun. discriminate.
    + revert H. mrun. discriminate.
  - destruct items as [|v items].
    + exists []. reflexivity.
    + unfold bind, lift, Console.say, ret in H.
      cbn [Py.truthy Py.len Py.iter negb length Nat.eqb] in H.
      destruct (TrustLineChecker.show_lines w me (v :: items) s)
        as [[e|[]] s2] eqn:Hshow; [discriminate H|].
      destruct (show_lines_returns_records w me (v :: items) s) as [l Hl];
        [rewrite Hshow; reflexivity|].
      exists l. rewrite Hl. reflexivity.
  - revert H. simpl Py.truthy. simpl Py.len. simpl Py.iter.
    destruct (map_to_list m) as [|[k v] kvs] eqn:Hkv.
    + apply map_to_list_empty_iff in Hkv. subst m.
      rewrite map_size_empty. mrun. discriminate.
    + destruct (negb (negb (Nat.eqb (size m) 0))); mrun; discriminate.
Qed.

(** X1.  [check_trustline] answers [true] only when there is a client, the
    query returned, the answer has no error field, its trust lines are a
    list of records and that list has a usable first match. *)
Theorem check_trustline_true_only_on_usable (w : World) (a : string)
    (s : State) :
  fst (TrustLineChecker.check_trustline w a s) = inr true ->
  exists (c : AsyncWebsocketClient) (result : gmap string json)
         (l : list (gmap string json)),
    client (self s) = Some c /\
    ws_request w (calls s) a = inr result /\
    result !! "error" = None /\
    result !! "lines" = Some (JArr (JObj <$> l)) /\
    usable_trust_line (self s) l.
Proof.
  intros Htrue.
  destruct (client (self s)) as [c|] eqn:Hc.
  2:{ revert Htrue. unfold TrustLineChecker.check_trustline, try_except,
        TrustLineChecker.check_trustline_body.
      unfold bind at 1 2. unfold Client.request. rewrite Hc.
      simpl. discriminate. }
  destruct (ws_request w (calls s) a) as [e|result] eqn:Hr.
  { revert Htrue. unfold TrustLineChecker.check_trustline, try_except,
      TrustLineChecker.check_trustline_body.
    unfold bind at 1 2. unfold Client.request. rewrite Hc, Hr.
    simpl. discriminate. }
  destruct (result !! "error") as [err|] eqn:He.
  { revert Htrue. unfold TrustLineChecker.check_trustline, try_except,
      TrustLineChecker.check_trustline_body.
    unfold bind at 1 2. unfold Client.request. rewrite Hc, Hr, He.
    simpl. discriminate. }
  assert (Hret : exists s1,
            TrustLineChecker.check_trustline_body w a s = (inr true, s1)).
  { revert Htrue. unfold TrustLineChecker.check_trustline, try_except.
    destruct (TrustLineChecker.check_trustline_body w a s) as [[e|b] s1];
      simpl; [discriminate|].
    intros [= ->]. eauto. }
  destruct Hret as [s1 Hret].
  assert (Hafter := Hret).
  rewrite (body_after_answer w a s c result Hc Hr) in Hafter.
  destruct (lines_not_records w _ _ _ _ He Hafter) as [l Hl].
  rewrite (body_on_list w a s c result _ Hc Hr He Hl) in Hret.
  unfold bind in Hret.
  assert (Hsilent := silent_show_lines w (self s) (JObj <$> l)
                       (requested s a)).
  destruct (TrustLineChecker.show_lines w (self s) (JObj <$> l)
              (requested s a)) as [[e|u] s2]; [discriminate Hret|].
  simpl in Hsilent. subst s2.
  destruct (find_line_records (self s) l (requested s a))
    as (b & Hfind & Hb).
  rewrite Hfind in Hret. injection Hret as -> _.
  assert (Hu : usable_trust_line (self s) l) by (apply Hb; reflexivity).
  destruct (result !! "lines") as [v|] eqn:Hlines.
  - exists c, result, l. subst v. auto.
  - destruct l; [|discriminate Hl].
    destruct Hu as (pre & e & post & v & (Hnil & _) & _).
    destruct pre; discriminate.
Qed.

Lemma check_trustline_true_only_on_usable_witness :
  exists (c : AsyncWebsocketClient) (result : gmap string json)
         (l : list (gmap string json)),
    client (self demo_state) = Some c /\
    ws_request demo (calls demo_state) "rA" = inr result /\
    result !! "error" = None /\
    result !! "lines" = Some (JArr (JObj <$> l)) /\
    usable_trust_line (self demo_state) l.
Proof.
  apply (check_trustline_true_only_on_usable demo "rA" demo_state).
  reflexivity.
Defined.

Lemma no_client_no_request (w : World) (a : string) (s : State) :
  client (self s) = None ->
  TrustLineChecker.check_trustline_body w a s
  = (inl (AttributeError "'NoneType' object has no attribute 'request'"), s).
Proof.
  intros Hc. unfold TrustLineChecker.check_trustline_body.
  unfold bind at 1 2. unfold Client.request. rewrite Hc. reflexivity.
Qed.



(** X3.  With a client, one evaluation makes exactly one call, the request
    for its address, whatever comes back (a usable answer, an error field,
    an exception, an answer of another shape), and leaves the checker as it
    was. *)
Theorem check_trustline_one_request (w : World) (a : string) (s : State)
    (c : AsyncWebsocketClient) :
  client (self s) = Some c ->
  calls (snd (TrustLineChecker.check_trustline w a s))
  = calls s ++ [Request a] /\
  self (snd (TrustLineChecker.check_trustline w a s)) = self s.
Proof.
  intros Hc. rewrite check_trustline_state, Hc. split; reflexivity.
Qed.

Lemma check_trustline_one_request_witness :
  calls (snd (TrustLineChecker.check_trustline demo "rB" demo_state))
  = calls demo_state ++ [Request "rB"] /\
  self (snd (TrustLineChecker.check_trustline demo "rB" demo_state))
  = self demo_state.
Proof.
  apply (check_trustline_one_request demo "rB" demo_state demo_client).
  reflexivity.
Defined.

(** X4.  The deciding loop looks at the first matching record only: on a
    list of records its answer is its answer on that record alone, so
    records that do not match, and every record after the first match,
    never change it. *)
Theorem find_line_first_match_only (me : TrustLineChecker)
    (l : list (gmap string json)) (s : State) :
  TrustLineChecker.find_line me (JObj <$> l) s
  = TrustLineChecker.find_line me
      (JObj <$> take 1 (List.filter (matchesb me) l)) s.
Proof.
  induction l as [|e l IH]; [reflexivity|].
  simpl List.filter. unfold matchesb at 1.
  simpl. mrun.
  destruct (Py.eq_str _ (token_issuer me)) eqn:Ha;
    [destruct (Py.eq_str _ (token_currency me)) eqn:Hc|]; simpl.
  - mrun. rewrite Ha, Hc. reflexivity.
  - exact IH.
  - exact IH.
Qed.

Lemma body_is_request_then_answer (w : World) (a : string) (s : State) :
  TrustLineChecker.check_trustline_body w a s
  = (do result <- Client.request w a; after_answer w (self s) result) s.
Proof. reflexivity. Qed.

Lemma constant_after_answer (w : World) (me : TrustLineChecker)
    (result : gmap string json) :
  constant_step (after_answer w me result).
Proof.
  unfold after_answer. destruct (result !! "error"); auto 30 with constant.
Qed.

(** One evaluation looks at the checker and at the answer to its request,
    and at nothing else of the state. *)
Lemma check_trustline_same_answer (w : World) (a : string) (s s' : State) :
  self s = self s' ->
  ws_request w (calls s) a = ws_request w (calls s') a ->
  fst (TrustLineChecker.check_trustline w a s)
  = fst (TrustLineChecker.check_trustline w a s').
Proof.
  intros Hself Hr. unfold TrustLineChecker.check_trustline, try_except.
  rewrite !body_is_request_then_answer. unfold bind, Client.request.
  rewrite <- Hself, <- Hr.
  destruct (client (self s)); [|reflexivity].
  destruct (ws_request w (calls s) a) as [e|result]; [reflexivity|].
  destruct (constant_after_answer w (self s) result) as [r Hk].
  rewrite !Hk. destruct r; reflexivity.
Qed.

(** ** More on the batch *)

(** X5.  With a client and on a console that prints the status lines, the
    batch makes one request per address, in the order of the input and with
    repeated addresses asked again, and no other call; the empty batch
    returns no status and calls nothing. *)
Theorem check_wallets_requests (w : World) (wallets : list string)
    (s : State) (c : AsyncWebsocketClient) :
  client (self s) = Some c ->
  marks_printable w ->
  calls (snd (TrustLineChecker.check_wallets w wallets s))
  = calls s ++ map Request wallets /\
  self (snd (TrustLineChecker.check_wallets w wallets s)) = self s /\
  TrustLineChecker.check_wallets w [] s = (inr [], s).
Proof.
  intros Hc Hp. unfold TrustLineChecker.check_wallets.
  rewrite (check_wallets_from_spec w wallets Hp). simpl.
  rewrite (batch_state_calls s wallets c Hc).
  unfold batch_state. rewrite Hc. repeat split.
Qed.

Lemma check_wallets_requests_witness :
  calls (snd (TrustLineChecker.check_wallets demo ["rA"; "rB"; "rA"] demo_state))
  = calls demo_state ++ map Request ["rA"; "rB"; "rA"] /\
  self (snd (TrustLineChecker.check_wallets demo ["rA"; "rB"; "rA"] demo_state))
  = self demo_state /\
  TrustLineChecker.check_wallets demo [] demo_state = (inr [], demo_state).
Proof.
  apply (check_wallets_requests demo ["rA"; "rB"; "rA"] demo_state demo_client);
    [reflexivity | split; reflexivity].
Defined.

(** The results collected so far are handed through the loop unchanged. *)
Lemma check_wallets_from_results (w : World) (wallets : list string) :
  forall (results : list WalletStatus) (s : State),
    TrustLineChecker.check_wallets_from w results wallets s
    = match TrustLineChecker.check_wallets_from w [] wallets s with
      | (inl e, s1) => (inl e, s1)
      | (inr rs, s1) => (inr (results ++ rs), s1)
      end.
Proof.
  induction wallets as [|a rest IH]; intros results s.
  - simpl. unfold ret. rewrite app_nil_r. reflexivity.
  - destruct (check_trustline_returns w a s) as (b & s1 & Hb).
    rewrite !(check_wallets_from_turn w _ a rest s s1 b Hb).
    destruct (stdout w (if b then CheckMark else CrossMark)); [reflexivity|].
    rewrite (IH (results ++ _)), (IH ([] ++ _)).
    destruct (TrustLineChecker.check_wallets_from w [] rest s1)
      as [[e|rs] s2]; [reflexivity|].
    rewrite <- app_assoc. reflexivity.
Qed.

Lemma check_wallets_from_app (w : World) (xs ys : list string) :
  forall (results : list WalletStatus) (s : State),
    TrustLineChecker.check_wallets_from w results (xs ++ ys) s
    = match TrustLineChecker.check_wallets_from w results xs s with
      | (inl e, s1) => (inl e, s1)
      | (inr r1, s1) => TrustLineChecker.check_wallets_from w r1 ys s1
      end.
Proof.
  induction xs as [|a xs IH]; intros results s; [reflexivity|].
  destruct (check_trustline_returns w a s) as (b & s1 & Hb).
  change ((a :: xs) ++ ys) with (a :: (xs ++ ys)).
  rewrite !(check_wallets_from_turn w _ a _ s s1 b Hb).
  destruct (stdout w (if b then CheckMark else CrossMark)); [reflexivity|].
  apply IH.
Qed.

(** X6.  A batch over [xs ++ ys] is the batch over [xs] followed by the
    batch over [ys] from the state the first one left: when the first one
    raises, that is the outcome and [ys] is not touched; otherwise the
    outcome is that of the second, with the two result lists one after the
    other when it returns. *)
Theorem check_wallets_app (w : World) (xs ys : list string) (s : State) :
  TrustLineChecker.check_wallets w (xs ++ ys) s
  = match TrustLineChecker.check_wallets w xs s with
    | (inl e, s1) => (inl e, s1)
    | (inr r1, s1) =>
        match TrustLineChecker.check_wallets w ys s1 with
        | (inl e, s2) => (inl e, s2)
        | (inr r2, s2) => (inr (r1 ++ r2), s2)
        end
    end.
Proof.
  unfold TrustLineChecker.check_wallets.
  rewrite check_wallets_from_app.
  destruct (TrustLineChecker.check_wallets_from w [] xs s) as [[e|r1] s1];
    [reflexivity|].
  apply check_wallets_from_results.
Qed.

Lemma statuses_without_client (w : World) (wallets : list string) (s : State) :
  client (self s) = None ->
  statuses w wallets s
  = map (fun a => {| address := a; has_trustline := false |}) wallets.
Proof.
  intros Hc. induction wallets as [|a rest IH]; [reflexivity|].
  simpl. unfold TrustLineChecker.check_trustline, try_except.
  rewrite (no_client_no_request w a s Hc). simpl. rewrite IH. reflexivity.
Qed.

Lemma check_wallets_from_without_client (w : World) (wallets : list string)
    (s : State) :
  client (self s) = None ->
  stdout w CrossMark = None ->
  forall results,
    TrustLineChecker.check_wallets_from w results wallets s
    = (inr (results
            ++ map (fun a => {| address := a; has_trustline := false |})
                   wallets), s).
Proof.
  intros Hc Hcross. induction wallets as [|a rest IH]; intros results.
  - simpl. unfold ret. rewrite app_nil_r. reflexivity.
  - assert (Hb : TrustLineChecker.check_trustline w a s = (inr false, s)).
    { unfold TrustLineChecker.check_trustline, try_except.
      rewrite (no_client_no_request w a s Hc). reflexivity. }
    rewrite (check_wallets_from_turn w results a rest s s false Hb), Hcross.
    rewrite IH, <- app_assoc. reflexivity.
Qed.

(** X7.  A batch on a checker without client, on a console that prints the
    cross of the status line, gives every address the status [false] and
    calls nothing. *)
Theorem check_wallets_without_client (w : World) (wallets : list string)
    (s : State) :
  client (self s) = None ->
  stdout w CrossMark = None ->
  TrustLineChecker.check_wallets w wallets s
  = (inr (map (fun a => {| address := a; has_trustline := false |}) wallets),
     s).
Proof.
  intros Hc Hcross. unfold TrustLineChecker.check_wallets.
  apply (check_wallets_from_without_client w wallets s Hc Hcross []).
Qed.

Lemma check_wallets_without_client_witness :
  TrustLineChecker.check_wallets demo ["rA"; "rB"] demo_fresh_state
  = (inr (map (fun a => {| address := a; has_trustline := false |})
              ["rA"; "rB"]),
     demo_fresh_state).
Proof.
  apply (check_wallets_without_client demo ["rA"; "rB"] demo_fresh_state);
    reflexivity.
Defined.

Lemma statuses_history_free (w : World) (wallets : list string) :
  history_free w ->
  forall s s0, self s = self s0 ->
    statuses w wallets s
    = map (fun a => {| address := a; has_trustline := verdict w a s0 |})
          wallets.
Proof.
  intros Hfree. induction wallets as [|a rest IH]; intros s s0 Hself;
    [reflexivity|].
  simpl.
  assert (Hkeep := check_trustline_keeps_self w a s).
  assert (Hsame := check_trustline_same_answer w a s s0 Hself
                     (Hfree (calls s) (calls s0) a)).
  unfold verdict at 1. rewrite <- Hsame.
  destruct (TrustLineChecker.check_trustline w a s) as [r s1].
  simpl in *. rewrite (IH s1 s0) by congruence. reflexivity.
Qed.

(** X8.  When the ledger answers a query by its account alone and the
    console prints the status lines, the status of an address in a batch is
    the answer of a single evaluation of that address: it depends neither on
    its place in the batch nor on the other addresses, and a repeated
    address gets the same status each time. *)
Theorem check_wallets_history_free (w : World) (wallets : list string)
    (s : State) :
  history_free w ->
  marks_printable w ->
  fst (TrustLineChecker.check_wallets w wallets s)
  = inr (map (fun a => {| address := a; has_trustline := verdict w a s |})
             wallets).
Proof.
  intros Hfree Hp. unfold TrustLineChecker.check_wallets.
  rewrite (check_wallets_from_spec w wallets Hp). simpl.
  rewrite (statuses_history_free w wallets Hfree s s eq_refl). reflexivity.
Qed.

Lemma check_wallets_history_free_witness :
  fst (TrustLineChecker.check_wallets demo ["rA"; "rB"; "rA"] demo_state)
  = inr (map (fun a => {| address := a;
                          has_trustline := verdict demo a demo_state |})
             ["rA"; "rB"; "rA"]).
Proof.
  apply (check_wallets_history_free demo ["rA"; "rB"; "rA"] demo_state).
  - intros h1 h2 account. reflexivity.
  - split; reflexivity.
Defined.

(** ** More on the issuer *)

Lemma append_separator (a b : string) (c : ascii) :
  String.append (String.append a (String c EmptyString)) b
  = String.append a (String c b).
Proof.
  induction a as [|d a IH]; [reflexivity|].
  exact (f_equal (String d) IH).
Qed.

(** X9.  The issuer [__init__] stores never contains a ["."] and is the end
    of the configured issuer; building a checker from a stored issuer
    stores it again unchanged. *)
Theorem init_issuer_without_separator (websocket_url issuer currency : string) :
  ~ In "."%char
      (String.list_ascii_of_string
         (token_issuer (TrustLineChecker.init websocket_url issuer currency))) /\
  (exists before,
     issuer = String.append before
                (token_issuer
                   (TrustLineChecker.init websocket_url issuer currency))) /\
  TrustLineChecker.init websocket_url
    (token_issuer (TrustLineChecker.init websocket_url issuer currency))
    currency
  = TrustLineChecker.init websocket_url issuer currency.
Proof.
  assert (Hno : Py.contains "."
                  (token_issuer
                     (TrustLineChecker.init websocket_url issuer currency))
                = false /\
                exists before,
                  issuer = String.append before
                    (token_issuer
                       (TrustLineChecker.init websocket_url issuer currency))).
  { unfold TrustLineChecker.init. simpl.
    destruct (Py.contains "." issuer) eqn:Hc.
    - destruct (split_last "." issuer Hc) as (before & Heq & Hno & _).
      split; [exact Hno|].
      exists (String.append before (String "." EmptyString)).
      rewrite append_separator. exact Heq.
    - split; [exact Hc|]. exists EmptyString. reflexivity. }
  destruct Hno as [Hno Hsuffix].
  split; [rewrite <- contains_In, Hno; discriminate|].
  split; [exact Hsuffix|].
  unfold TrustLineChecker.init at 1. rewrite Hno. reflexivity.
Qed.

Lemma split_trailing (c : ascii) (s : string) :
  Py.contains c (String.append s (String c EmptyString)) = true /\
  List.last (Py.split c (String.append s (String c EmptyString))) EmptyString
  = EmptyString.
Proof.
  induction s as [|d s [IHc IHl]]; simpl.
  - rewrite Ascii.eqb_refl. split; reflexivity.
  - destruct (Ascii.eqb d c).
    + split; [reflexivity|].
      rewrite (last_cons_not_nil _ _ _ (split_not_nil c _)). exact IHl.
    + split; [exact IHc|].
      destruct (split_last c _ IHc) as (_ & _ & _ & w & x & ws & Hsp).
      rewrite Hsp in *. exact IHl.
Qed.

(** X10.  A configured issuer that ends in ["."] leaves the empty string as
    issuer. *)
Theorem init_issuer_trailing_separator (websocket_url prefix currency : string) :
  token_issuer
    (TrustLineChecker.init websocket_url
       (String.append prefix (String "." EmptyString)) currency)
  = EmptyString.
Proof.
  unfold TrustLineChecker.init. simpl.
  destruct (split_trailing "." prefix) as [-> Hl]. exact Hl.
Qed.

(** ** connect and close *)


(** X12.  [close] keeps the client in the checker: with a client, each
    [close] calls the client's close, so closing twice closes twice. *)
Theorem close_keeps_client (w : World) (s : State) (c : AsyncWebsocketClient) :
  client (self s) = Some c ->
  TrustLineChecker.close w s
  = (close_outcome w (calls s),
     {| self := self s; calls := calls s ++ [Close] |}) /\
  calls (snd (TrustLineChecker.close w (snd (TrustLineChecker.close w s))))
  = calls s ++ [Close; Close].
Proof.
  intros Hc. unfold TrustLineChecker.close, bind, Client.close, close_outcome,
    Console.say, ret.
  simpl. rewrite Hc. simpl.
  destruct (ws_close w (calls s)); simpl; rewrite Hc; simpl;
    destruct (ws_close w (calls s ++ [Close])); simpl;
    rewrite <- app_assoc; split; reflexivity.
Qed.

Lemma close_keeps_client_witness :
  TrustLineChecker.close demo demo_state
  = (close_outcome demo (calls demo_state),
     {| self := self demo_state; calls := calls demo_state ++ [Close] |}) /\
  calls (snd (TrustLineChecker.close demo
                (snd (TrustLineChecker.close demo demo_state))))
  = calls demo_state ++ [Close; Close].
Proof.
  apply (close_keeps_client demo demo_state demo_client). reflexivity.
Defined.

(** ** The output table and the summary *)


(** X14.  In the final summary the number of addresses listed is the count
    without trust line, both counts lie between 0 and the total, and an
    address is listed exactly when some result carries it with flag
    false. *)
Theorem final_summary_consistent (results : list WalletStatus) :
  Z.of_nat (length (wallets_missing_trust_lines (final_summary results)))
  = wallets_without_trustline (final_summary results) /\
  (0 <= wallets_with_trustline (final_summary results)
     <= total_wallets_checked (final_summary results))%Z /\
  (0 <= wallets_without_trustline (final_summary results)
     <= total_wallets_checked (final_summary results))%Z /\
  (forall a,
     In a (wallets_missing_trust_lines (final_summary results)) <->
     exists r, In r results /\ address r = a /\ has_trustline r = false).
Proof.
  unfold final_summary, trustlines_count. simpl.
  rewrite sum_of_ones, comprehension_is_filter, length_map.
  assert (H := filter_split_length results).
  repeat split; try lia.
  - intros Hin. apply in_map_iff in Hin. destruct Hin as (r & Ha & Hr).
    apply List.filter_In in Hr. destruct Hr as [Hr Hf].
    exists r. repeat split; auto. apply negb_true_iff. exact Hf.
  - intros (r & Hr & Ha & Hf). apply in_map_iff. exists r.
    split; [exact Ha|]. apply List.filter_In. split; [exact Hr|].
    apply negb_true_iff. exact Hf.
Qed.

(** ** More on the top-level run *)



(** X16.  A configured run that loads its wallets and opens the connection,
    on a console that prints the status lines, opens the configured URL,
    asks once for each loaded wallet in order and closes, whether or not
    the table can be written afterwards; its checker carries the issuer as
    [__init__] stores it. *)
Theorem main_calls_when_connected (w : World) (u i c : string)
    (wallets : list string) :
  getenv w "XRPL_WEBSOCKET_URL" = Some u -> u <> "" ->
  getenv w "TOKEN_ISSUER" = Some i -> i <> "" ->
  getenv w "TOKEN_CURRENCY" = Some c -> c <> "" ->
  load_wallets w (default "wallets.csv" (getenv w "INPUT_CSV")) = inr wallets ->
  ws_open w [] u = None ->
  marks_printable w ->
  made (snd (main w start)) = Open u :: map Request wallets ++ [Close] /\
  checker (snd (main w start)) = Some (connected_checker u i c) /\
  fst (main w start) = close_outcome w (Open u :: map Request wallets).
Proof.
  intros Hu Hu' Hi Hi' Hc Hc' Hload Hopen Hp.
  rewrite (main_configured_run w u i c Hu Hu' Hi Hi' Hc Hc'), Hload, Hopen.
  unfold TrustLineChecker.check_wallets.
  rewrite (check_wallets_from_spec w wallets Hp).
  repeat split.
Qed.

Lemma main_calls_when_connected_witness :
  made (snd (main demo start))
  = Open "wss://xrpl.example"
    :: map Request ["rA"; "rB"; "rC"; "rD"; "rE"] ++ [Close] /\
  checker (snd (main demo start))
  = Some (connected_checker "wss://xrpl.example" "ns.rABC123" "USD") /\
  fst (main demo start)
  = close_outcome demo
      (Open "wss://xrpl.example" :: map Request ["rA"; "rB"; "rC"; "rD"; "rE"]).
Proof.
  apply (main_calls_when_connected demo "wss://xrpl.example" "ns.rABC123"
           "USD" ["rA"; "rB"; "rC"; "rD"; "rE"]);
    solve [reflexivity | discriminate | split; reflexivity].
Defined.





(** X19.  A summary is printed only by a run that loaded its wallets,
    opened the connection and wrote the table; it is the summary of the
    statuses of the batch, and its total is the number of wallets loaded. *)
Theorem main_summary_printed (w : World) (sm : Summary) :
  summary (snd (main w start)) = Some sm ->
  exists u i c wallets,
    load_wallets w (default "wallets.csv" (getenv w "INPUT_CSV")) = inr wallets /\
    ws_open w [] u = None /\
    to_csv w (default "trustline_status.csv" (getenv w "OUTPUT_CSV"))
      (result_rows (statuses w wallets
                      {| self := connected_checker u i c;
                         calls := [Open u] |})) = None /\
    sm = final_summary (statuses w wallets
                          {| self := connected_checker u i c;
                             calls := [Open u] |}) /\
    total_wallets_checked sm = Z.of_nat (length wallets).
Proof.
  destruct (configured_or_not w) as [(u & i & c & Hu & Hu' & Hi & Hi' & Hc & Hc')|Hn].
  2:{ rewrite (main_not_configured w start Hn). discriminate. }
  rewrite (main_configured_run w u i c Hu Hu' Hi Hi' Hc Hc').
  destruct (load_wallets w _) as [e0|wallets] eqn:Hload; [discriminate|].
  destruct (ws_open w [] u) as [e0|] eqn:Hopen; simpl; [discriminate|].
  destruct (TrustLineChecker.check_wallets w wallets _) as [r s1] eqn:Hbatch.
  simpl. destruct r as [e0|results]; [discriminate|].
  apply check_wallets_from_returned in Hbatch. destruct Hbatch as [-> _].
  simpl app.
  destruct (to_csv w _ _) as [e0|] eqn:Hsave; [discriminate|].
  intros [= <-]. exists u, i, c, wallets.
  split; [reflexivity|]. split; [exact Hopen|]. split; [exact Hsave|].
  split; [reflexivity|].
  simpl. f_equal.
  rewrite <- (length_map address), statuses_addresses. reflexivity.
Qed.

Lemma main_summary_printed_witness :
  exists u i c wallets,
    load_wallets demo (default "wallets.csv" (getenv demo "INPUT_CSV"))
    = inr wallets /\
    ws_open demo [] u = None /\
    to_csv demo (default "trustline_status.csv" (getenv demo "OUTPUT_CSV"))
      (result_rows (statuses demo wallets
                      {| self := connected_checker u i c;
                         calls := [Open u] |})) = None /\
    {| total_wallets_checked := 5;
       wallets_with_trustline := 1;
       wallets_without_trustline := 4;
       wallets_missing_trust_lines := ["rB"; "rC"; "rD"; "rE"] |}
    = final_summary (statuses demo wallets
                       {| self := connected_checker u i c;
                          calls := [Open u] |}) /\
    total_wallets_checked
      {| total_wallets_checked := 5;
         wallets_with_trustline := 1;
         wallets_without_trustline := 4;
         wallets_missing_trust_lines := ["rB"; "rC"; "rD"; "rE"] |}
    = Z.of_nat (length wallets).
Proof.
  apply (main_summary_printed demo). reflexivity.
Defined.

(** X20.  When the table cannot be written after a batch on a console that
    prints the status lines, every query has been made and the connection
    is closed, but no summary is printed, and the failure of the write does
    not leave [main]. *)
Theorem main_write_failure (w : World) (u i c : string)
    (wallets : list string) (e : exn) :
  getenv w "XRPL_WEBSOCKET_URL" = Some u -> u <> "" ->
  getenv w "TOKEN_ISSUER" = Some i -> i <> "" ->
  getenv w "TOKEN_CURRENCY" = Some c -> c <> "" ->
  load_wallets w (default "wallets.csv" (getenv w "INPUT_CSV")) = inr wallets ->
  ws_open w [] u = None ->
  to_csv w (default "trustline_status.csv" (getenv w "OUTPUT_CSV"))
    (result_rows (statuses w wallets
                    {| self := connected_checker u i c;
                       calls := [Open u] |})) = Some e ->
  marks_printable w ->
  main w start
  = (close_outcome w (Open u :: map Request wallets),
     {| checker := Some (connected_checker u i c);
        made := Open u :: map Request wallets ++ [Close];
        summary := None |}).
Proof.
  intros Hu Hu' Hi Hi' Hc Hc' Hload Hopen Hsave Hp.
  rewrite (main_configured_run w u i c Hu Hu' Hi Hi' Hc Hc'), Hload, Hopen.
  unfold TrustLineChecker.check_wallets.
  rewrite (check_wallets_from_spec w wallets Hp). simpl app.
  rewrite Hsave. reflexivity.
Qed.

Lemma main_write_failure_witness :
  main demo_read_only start
  = (close_outcome demo_read_only
       (Open "wss://xrpl.example"
        :: map Request ["rA"; "rB"; "rC"; "rD"; "rE"]),
     {| checker :=
          Some (connected_checker "wss://xrpl.example" "ns.rABC123" "USD");
        made := Open "wss://xrpl.example"
                :: map Request ["rA"; "rB"; "rC"; "rD"; "rE"] ++ [Close];
        summary := None |}).
Proof.
  apply (main_write_failure demo_read_only "wss://xrpl.example" "ns.rABC123"
           "USD" ["rA"; "rB"; "rC"; "rD"; "rE"]
           (RemoteError "permission denied"));
    solve [reflexivity | discriminate | split; reflexivity].
Defined.

(** X21.  A required setting that is present but empty counts as missing:
    [main] returns at once, with no checker and no call. *)
Theorem main_empty_setting (w : World) (f : Frame) :
  getenv w "XRPL_WEBSOCKET_URL" = Some "" \/
  getenv w "TOKEN_ISSUER" = Some "" \/
  getenv w "TOKEN_CURRENCY" = Some "" ->
  main w f = (inr tt, f).
Proof.
  intros Hempty. apply main_not_configured.
  intros (u & i & c & Hu & Hu' & Hi & Hi' & Hc & Hc').
  destruct Hempty as [H|[H|H]]; congruence.
Qed.

Lemma main_empty_setting_witness :
  main demo_empty_issuer start = (inr tt, start).
Proof.
  apply (main_empty_setting demo_empty_issuer start).
  right. left. reflexivity.
Defined.

(** The sample run on a console without the three literals: the first
    wallet is asked for, its status line raises, [main] prints the error,
    closes and returns without summary. *)
Example main_on_cp1252 :
  main demo_cp1252 start
  = (inr tt,
     {| checker :=
          Some (connected_checker "wss://xrpl.example" "ns.rABC123" "USD");
        made := [Open "wss://xrpl.example"; Request "rA"; Close];
        summary := None |}).
Proof. reflexivity. Qed.

(** ** load_wallets *)

Lemma has_address_column (names : list string) :
  existsb (String.eqb "address") names = true <-> In "address" names.
Proof.
  rewrite existsb_exists. split.
  - intros (x & Hin & Heq). apply String.eqb_eq in Heq. subst. exact Hin.
  - intros Hin. exists "address". split; [exact Hin | apply String.eqb_refl].
Qed.

(** The loop over rows that are all long enough and read without failure:
    the stripped cells that are not empty, added in order. *)
Lemma read_rows_values (strip : string -> string) (vs : list string) :
  forall wallets,
    Loader.read_rows strip wallets (map Some vs) None
    = inr (wallets
           ++ List.filter (fun a => negb (String.eqb a "")) (map strip vs)).
Proof.
  induction vs as [|v vs IH]; intros wallets; simpl.
  - rewrite app_nil_r. reflexivity.
  - destruct (negb (String.eqb (strip v) "")); rewrite IH;
      [rewrite <- app_assoc|]; reflexivity.
Qed.

Lemma read_rows_returned (strip : string -> string)
    (cells : list (option string)) (failure : option string) :
  forall wallets result,
    Loader.read_rows strip wallets cells failure = inr result ->
    failure = None /\ exists vs, cells = map Some vs.
Proof.
  induction cells as [|[v|] cells IH]; intros wallets result H; simpl in H.
  - destruct failure; [discriminate|]. split; [reflexivity|].
    exists []. reflexivity.
  - destruct (negb (String.eqb (strip v) ""));
      destruct (IH _ _ H) as (Hf & vs & Hvs);
      (split; [exact Hf|]; exists (v :: vs); simpl; rewrite Hvs; reflexivity).
  - discriminate.
Qed.

(** X22.  When [load_wallets] returns, the file has an address column, every
    row had the field and the reading did not fail; the list returned is the
    stripped cells that are not empty, in the order of the rows and with
    repeated addresses kept, and it is never empty. *)
Theorem load_wallets_returned (strip : string -> string)
    (files : string -> csv_file) (csv_path : string) (wallets : list string) :
  Loader.load_wallets strip files csv_path = inr wallets ->
  exists names vs,
    files csv_path = DictReader (Some names) (map Some vs) None /\
    In "address" names /\
    wallets = List.filter (fun a => negb (String.eqb a "")) (map strip vs) /\
    wallets <> [] /\
    Forall (fun a => a <> "") wallets.
Proof.
  unfold Loader.load_wallets, Loader.load_wallets_body.
  destruct (files csv_path) as [|msg|[names|] cells failure];
    try discriminate.
  destruct (existsb (String.eqb "address") names) eqn:Hcol; simpl;
    [|discriminate].
  destruct (Loader.read_rows strip [] cells failure) as [e|ws] eqn:Hrows.
  { destruct e; discriminate. }
  destruct ws as [|a ws]; [discriminate|]. intros [= <-].
  destruct (read_rows_returned strip cells failure [] _ Hrows)
    as (-> & vs & ->).
  rewrite read_rows_values in Hrows. simpl in Hrows. injection Hrows as Hrows.
  exists names, vs. split; [reflexivity|].
  split; [apply has_address_column; exact Hcol|].
  split; [symmetry; exact Hrows|]. split; [discriminate|].
  rewrite <- Hrows. apply Forall_forall. intros x Hx.
  apply list_elem_of_In, List.filter_In in Hx. destruct Hx as [_ Hx].
  apply negb_true_iff, String.eqb_neq in Hx. exact Hx.
Qed.

Lemma load_wallets_returned_witness :
  exists names vs,
    demo_files "wallets.csv" = DictReader (Some names) (map Some vs) None /\
    In "address" names /\
    ["rA"; "rB"; "rA"]
    = List.filter (fun a => negb (String.eqb a "")) (map strip_blanks vs) /\
    ["rA"; "rB"; "rA"] <> [] /\
    Forall (fun a => a <> "") ["rA"; "rB"; "rA"].
Proof.
  apply (load_wallets_returned strip_blanks demo_files "wallets.csv").
  reflexivity.
Defined.

(** X23.  Without a column named [address], [load_wallets] raises the
    reading error that says so, whatever the rows are: they are not read. *)
Theorem load_wallets_without_column (strip : string -> string)
    (files : string -> csv_file) (csv_path : string) (names : list string)
    (cells : list (option string)) (failure : option string) :
  files csv_path = DictReader (Some names) cells failure ->
  ~ In "address" names ->
  Loader.load_wallets strip files csv_path
  = inl (CsvReadingError
           (ValueError "CSV file must have a column named 'address'")).
Proof.
  intros Hfile Hcol. unfold Loader.load_wallets, Loader.load_wallets_body.
  rewrite Hfile. rewrite <- has_address_column in Hcol.
  destruct (existsb (String.eqb "address") names); [contradiction Hcol|];
    reflexivity.
Qed.

Lemma load_wallets_without_column_witness :
  Loader.load_wallets strip_blanks demo_files "names.csv"
  = inl (CsvReadingError
           (ValueError "CSV file must have a column named 'address'")).
Proof.
  apply (load_wallets_without_column strip_blanks demo_files "names.csv"
           ["name"] [Some "rA"] None); [reflexivity|].
  simpl. intros [H|[]]. discriminate H.
Defined.

(** X24.  With an address column but no row whose stripped cell is not
    empty (no row at all, or blank cells only), [load_wallets] raises the
    reading error that no address was found. *)
Theorem load_wallets_without_address (strip : string -> string)
    (files : string -> csv_file) (csv_path : string) (names : list string)
    (vs : list string) :
  files csv_path = DictReader (Some names) (map Some vs) None ->
  In "address" names ->
  Forall (fun v => strip v = "") vs ->
  Loader.load_wallets strip files csv_path
  = inl (CsvReadingError
           (ValueError "No wallet addresses found in CSV file")).
Proof.
  intros Hfile Hcol Hblank.
  unfold Loader.load_wallets, Loader.load_wallets_body.
  rewrite Hfile. apply has_address_column in Hcol. rewrite Hcol. simpl.
  rewrite read_rows_values. simpl.
  assert (Hnone : List.filter (fun a => negb (String.eqb a ""))
                    (map strip vs) = []).
  { clear Hfile. induction Hblank as [|v vs Hv _ IH]; [reflexivity|].
    simpl. rewrite Hv. simpl. exact IH. }
  rewrite Hnone. reflexivity.
Qed.

Lemma load_wallets_without_address_witness :
  Loader.load_wallets strip_blanks demo_files "blank.csv"
  = inl (CsvReadingError
           (ValueError "No wallet addresses found in CSV file")).
Proof.
  apply (load_wallets_without_address strip_blanks demo_files "blank.csv"
           ["address"] ["  "; ""]); [reflexivity | left; reflexivity |].
  repeat constructor.
Defined.

Lemma read_rows_not_found (strip : string -> string)
    (cells : list (option string)) (failure : option string) :
  forall wallets,
    Loader.read_rows strip wallets cells failure <> inl FileNotFoundError.
Proof.
  induction cells as [|[v|] cells IH]; intros wallets; simpl.
  - destruct failure; discriminate.
  - destruct (negb (String.eqb (strip v) "")); apply IH.
  - discriminate.
Qed.

(** X25.  [load_wallets] raises the file-not-found error exactly when the
    file is absent, and the error names the path that was asked for. *)
Theorem load_wallets_not_found (strip : string -> string)
    (files : string -> csv_file) (csv_path p : string) :
  Loader.load_wallets strip files csv_path = inl (CsvNotFound p) <->
  files csv_path = NoSuchFile /\ p = csv_path.
Proof.
  unfold Loader.load_wallets. split.
  - destruct (Loader.load_wallets_body strip (files csv_path))
      as [e|ws] eqn:Hbody; [|discriminate].
    destruct e; try discriminate. intros [= <-]. split; [|reflexivity].
    revert Hbody. unfold Loader.load_wallets_body.
    destruct (files csv_path) as [|msg|[names|] cells failure];
      try discriminate; [reflexivity|].
    destruct (negb (existsb (String.eqb "address") names)); [discriminate|].
    destruct (Loader.read_rows strip [] cells failure) as [e|ws] eqn:Hrows.
    + intros [= ->]. exfalso. exact (read_rows_not_found _ _ _ _ Hrows).
    + destruct ws; discriminate.
  - intros [Hfile ->]. rewrite Hfile. reflexivity.
Qed.

Lemma read_rows_short_row (strip : string -> string) (vs : list string)
    (rest : list (option string)) (failure : option string) :
  forall wallets,
    Loader.read_rows strip wallets (map Some vs ++ None :: rest) failure
    = inl NoStrip.
Proof.
  induction vs as [|v vs IH]; intros wallets; simpl; [reflexivity|].
  destruct (negb (String.eqb (strip v) "")); apply IH.
Qed.

(** X26.  A row too short to have the address field makes [load_wallets]
    raise a reading error, also when addresses were read before it: the
    addresses found so far are not returned. *)
Theorem load_wallets_short_row (strip : string -> string)
    (files : string -> csv_file) (csv_path : string) (names : list string)
    (vs : list string) (rest : list (option string))
    (failure : option string) :
  files csv_path = DictReader (Some names) (map Some vs ++ None :: rest) failure ->
  In "address" names ->
  Loader.load_wallets strip files csv_path = inl (CsvReadingError NoStrip).
Proof.
  intros Hfile Hcol.
  unfold Loader.load_wallets, Loader.load_wallets_body.
  rewrite Hfile. apply has_address_column in Hcol. rewrite Hcol. simpl.
  rewrite read_rows_short_row. reflexivity.
Qed.

Lemma load_wallets_short_row_witness :
  Loader.load_wallets strip_blanks demo_files "short.csv"
  = inl (CsvReadingError NoStrip).
Proof.
  apply (load_wallets_short_row strip_blanks demo_files "short.csv"
           ["name"; "address"] ["rA"] [Some "rB"] None);
    [reflexivity | right; left; reflexivity].
Defined.
